(** * ESP32 oscilloscope front end: capture, synthesis and measurement logic

    Shallow embedding of the non-GUI logic of
    [PYTHONS/oscilloscope_control.py] (class [ESP32Oscilloscope]).

    Conventions.
    - Python exceptions are values of [exn]; a method that can raise returns
      a [result].
    - Python floats are idealised: the measurement and capture code is
      modelled over exact rationals [Q] (executable), the demo synthesizer,
      which needs [sin] and [pi], over the reals [R]. Rounding error,
      infinities and NaN are outside the model. [SynthFloat] gives the
      synthesizer a second time with the floating-point operations as
      parameters, for what depends on how they round.
    - Each method is modelled on the slice of [self] it reads and writes.
    - Widget calls that only repaint (matplotlib line, axes, canvas, colours)
      are left out; a label widget is modelled by its text. *)

From Stdlib Require Import QArith Qminmax Qround Qabs Reals ZArith Ascii String.
From stdpp Require Import gmap strings pretty list.
From Stdlib Require Import Psatz.

(** ** Exceptions and results *)

Inductive exn : Type :=
  | ValueError
  | ZeroDivisionError
  | KeyError
  | TclError.

Inductive result (A : Type) : Type :=
  | Ok (a : A)
  | Raise (e : exn).

Arguments Ok {A} a.
Arguments Raise {A} e.

#[global] Instance result_ret : MRet result := fun A a => Ok a.

#[global] Instance result_bind : MBind result := fun A B k r =>
  match r with
  | Ok a => k a
  | Raise e => Raise e
  end.

(** ** The shared sample buffer

    [self.scope_data = {'time': [...], 'voltage': [...]}]: two lists that
    are replaced together. *)

Record ScopeData (num : Type) : Type := mkScope {
  time : list num;
  voltage : list num
}.

Arguments mkScope {num} _ _.
Arguments time {num} _.
Arguments voltage {num} _.

(** The buffer invariant of the data model. *)
Definition same_length {num : Type} (d : ScopeData num) : Prop :=
  length (time d) = length (voltage d).

Definition newline : string := String (ascii_of_nat 10) EmptyString.

(** ** Library parsers

    The program converts text to numbers through Tcl ([IntVar.get]) and
    through Python's [float]. Their full grammars are not part of the
    program: the code is modelled over any such parser, and [Decimal]
    below gives the plain decimal spellings for evaluation. *)

Class TclNumbers : Type := {
  (** [tk.getint]: [None] when Tcl raises [TclError]. *)
  tk_getint : string -> option Z;
  (** [tk.getdouble]: [None] when Tcl raises [TclError]. *)
  tk_getdouble : string -> option Q
}.

Class PyFloat : Type := {
  (** Built-in [float] on a string: [None] when it raises [ValueError]. *)
  py_float : string -> option Q
}.

Module Decimal.

Definition digit_of (c : ascii) : option Z :=
  let n := Z.of_nat (nat_of_ascii c) in
  if ((48 <=? n) && (n <=? 57))%Z then Some (n - 48)%Z else None.

(** Read the longest run of digits: its value, its length, and the rest. *)
Fixpoint digits_go (s : string) (acc : Z) (n : nat) : Z * nat * string :=
  match s with
  | String c s' =>
      match digit_of c with
      | Some d => digits_go s' (10 * acc + d)%Z (S n)
      | None => (acc, n, s)
      end
  | EmptyString => (acc, n, s)
  end.

Definition sign_of (s : string) : bool * string :=
  match s with
  | String "-" s' => (true, s')
  | String "+" s' => (false, s')
  | _ => (false, s)
  end.

(** [str.isspace] on the ASCII range. *)
Definition is_space (c : ascii) : bool :=
  let n := nat_of_ascii c in
  (((9 <=? n) && (n <=? 13)) || ((28 <=? n) && (n <=? 32)))%nat.

Fixpoint lstrip (s : string) : string :=
  match s with
  | String c s' => if is_space c then lstrip s' else s
  | EmptyString => EmptyString
  end.

(** [str.strip()]. *)
Definition strip (s : string) : string :=
  String.rev (lstrip (String.rev (lstrip s))).

(** An optional sign and at least one digit. *)
Definition parse_int (s : string) : option Z :=
  let '(neg, s1) := sign_of (strip s) in
  match digits_go s1 0 0 with
  | (v, S _, EmptyString) => Some (if neg then (- v)%Z else v)
  | _ => None
  end.

Definition parse_exponent (s : string) : option Z :=
  match s with
  | EmptyString => Some 0%Z
  | String c s' =>
      if (Ascii.eqb c "e" || Ascii.eqb c "E")%bool then
        let '(neg, s1) := sign_of s' in
        match digits_go s1 0 0 with
        | (v, S _, EmptyString) => Some (if neg then (- v)%Z else v)
        | _ => None
        end
      else None
  end.

(** An optional sign, digits with an optional fraction (at least one digit
    in all), and an optional exponent. *)
Definition parse_float (s : string) : option Q :=
  let '(neg, s1) := sign_of (strip s) in
  let '(ip, ni, s2) := digits_go s1 0 0 in
  let '(fp, nf, s3) :=
    match s2 with
    | String "." s' => digits_go s' 0 0
    | _ => (0%Z, O, s2)
    end in
  if (ni + nf =? 0)%nat then None else
  match parse_exponent s3 with
  | Some e =>
      let m := (inject_Z ip + inject_Z fp / inject_Z (10 ^ Z.of_nat nf))%Q in
      let v := (m * Qpower 10 e)%Q in
      Some (Qred (if neg then (- v)%Q else v))
  | None => None
  end.

#[global] Instance decimal_tcl : TclNumbers :=
  {| tk_getint := parse_int; tk_getdouble := parse_float |}.

#[global] Instance decimal_float : PyFloat :=
  {| py_float := parse_float |}.

End Decimal.

(** ** Text formatting: [f"{x:.3f}"] and [f"{x:.1f}"] *)

Module Format.

(** Round to the nearest integer, ties to even. *)
Definition round_half_even (q : Q) : Z :=
  let f := Qfloor q in
  match Qcompare (q - inject_Z f) (1 # 2) with
  | Lt => f
  | Gt => (f + 1)%Z
  | Eq => if Z.even f then f else (f + 1)%Z
  end.

(** Left-pad a digit string with zeros up to [d] characters. *)
Definition pad_zeros (d : nat) (s : string) : string :=
  String.concat "" (replicate (d - String.length s) "0"%string) +:+ s.

(** Fixed-point formatting with [d] digits after the point. The sign is
    taken from the value before rounding, as printf does. *)
Definition format_fixed (d : nat) (q : Q) : string :=
  let scale := (10 ^ Z.of_nat d)%Z in
  let n := round_half_even (Qabs q * inject_Z scale) in
  let sign := if QMicromega.Qlt_bool q 0 then "-"%string else ""%string in
  let int_part := pretty (n / scale)%Z in
  match d with
  | O => sign +:+ int_part
  | S _ => sign +:+ int_part +:+ "." +:+ pad_zeros d (pretty (n mod scale)%Z)
  end.

End Format.

(** ** Measurement engine and display ([update_display], [clear_display]) *)

Module Display.

Import Format.

Local Open Scope Q_scope.

Record state : Type := mkState {
  scope_data : ScopeData Q;
  meas_labels : gmap string string
}.

(** The five measurement labels built by [create_measurements_panel], each
    created with the text ["----"]. *)
Definition measurement_keys : list string :=
  ["vmax"; "vmin"; "vpp"; "vavg"; "freq"]%string.

Definition initial_labels : gmap string string :=
  list_to_map ((fun k => (k, "----"%string)) <$> measurement_keys).

(** [self.meas_labels[k].config(text=...)]: the subscript raises
    [KeyError] on a missing key. *)
Definition label_config (k text : string) (labels : gmap string string)
  : result (gmap string string) :=
  match labels !! k with
  | Some _ => Ok (<[k := text]> labels)
  | None => Raise KeyError
  end.

(** Built-in [max]: the first element, replaced by each later element that
    is strictly greater; [ValueError] on an empty sequence. *)
Definition py_max (l : list Q) : result Q :=
  match l with
  | [] => Raise ValueError
  | x :: tl =>
      Ok (fold_left (fun m y => if QMicromega.Qlt_bool m y then y else m) tl x)
  end.

(** Built-in [min], symmetric. *)
Definition py_min (l : list Q) : result Q :=
  match l with
  | [] => Raise ValueError
  | x :: tl =>
      Ok (fold_left (fun m y => if QMicromega.Qlt_bool y m then y else m) tl x)
  end.

Definition py_sum (l : list Q) : Q := fold_left Qplus l 0.

(** [np.mean]: the sum divided by the number of elements. *)
Definition np_mean (l : list Q) : Q :=
  py_sum l / inject_Z (Z.of_nat (length l)).

(** True division: [ZeroDivisionError] on a zero divisor. *)
Definition py_div (a b : Q) : result Q :=
  if Qeq_bool b 0 then Raise ZeroDivisionError else Ok (a / b).

(** One iteration of the loop body
    [if voltage_data[i-1] < v_avg <= voltage_data[i]: crossings += 1]. *)
Definition crossing_step (voltage_data : list Q) (v_avg : Q)
    (crossings : nat) (i : nat) : nat :=
  match voltage_data !! (i - 1)%nat, voltage_data !! i with
  | Some a, Some b =>
      if QMicromega.Qlt_bool a v_avg && Qle_bool v_avg b
      then S crossings else crossings
  | _, _ => crossings
  end.

(** [for i in range(1, len(voltage_data))], starting from [crossings = 0]. *)
Definition count_crossings (voltage_data : list Q) (v_avg : Q) : nat :=
  fold_left (crossing_step voltage_data v_avg)
            (seq 1 (length voltage_data - 1)) O.

(** [freq = (crossings / duration) * 1000 if duration > 0 else 0]; the
    division is evaluated only when the condition holds. *)
Definition estimate_freq (crossings : nat) (duration : Q) : result Q :=
  if QMicromega.Qlt_bool 0 duration
  then q ← py_div (inject_Z (Z.of_nat crossings)) duration; Ok (q * 1000)
  else Ok 0.

(** The values computed by [update_display] before they are formatted. *)
Record measurements : Type := mkMeas {
  v_max : Q;
  v_min : Q;
  v_pp : Q;
  v_avg : Q;
  crossings : nat;
  duration : Q;
  freq : Q
}.

Definition measure (time_data voltage_data : list Q) : result measurements :=
  vmax ← py_max voltage_data;
  vmin ← py_min voltage_data;
  let vpp := vmax - vmin in
  let vavg := np_mean voltage_data in
  let c := count_crossings voltage_data vavg in
  let d := List.last time_data 0 - List.hd 0 time_data in
  f ← estimate_freq c d;
  Ok (mkMeas vmax vmin vpp vavg c d f).

Definition show_measurements (m : measurements) (labels : gmap string string)
  : result (gmap string string) :=
  l1 ← label_config "vmax" (format_fixed 3 (v_max m)) labels;
  l2 ← label_config "vmin" (format_fixed 3 (v_min m)) l1;
  l3 ← label_config "vpp" (format_fixed 3 (v_pp m)) l2;
  l4 ← label_config "vavg" (format_fixed 3 (v_avg m)) l3;
  label_config "freq" (format_fixed 1 (freq m)) l4.

(** [update_display]: returns at once when [time_data] is empty. *)
Definition update_display (st : state) : result state :=
  let time_data := time (scope_data st) in
  let voltage_data := voltage (scope_data st) in
  match time_data with
  | [] => Ok st
  | _ :: _ =>
      m ← measure time_data voltage_data;
      labels ← show_measurements m (meas_labels st);
      Ok (mkState (scope_data st) labels)
  end.

(** [clear_display]: a fresh empty buffer, and every label in
    [self.meas_labels.values()] set to ["----"]. *)
Definition clear_display (st : state) : state :=
  mkState (mkScope [] []) ((fun _ => "----"%string) <$> meas_labels st).

(** *** The measurements in the words of the specification *)

(** Arithmetic mean: the sum of the elements over their number. *)
Definition arith_mean (l : list Q) : Q :=
  foldr Qplus 0 l / inject_Z (Z.of_nat (length l)).

Definition is_maximum (m : Q) (l : list Q) : Prop :=
  In m l /\ forall x, In x l -> x <= m.

Definition is_minimum (m : Q) (l : list Q) : Prop :=
  In m l /\ forall x, In x l -> m <= x.

(** Rising mean-crossings: neighbours [a], [b] with [a < mean <= b]. *)
Fixpoint rising_crossings (mean : Q) (l : list Q) : nat :=
  match l with
  | a :: (b :: _) as tl =>
      (if Qlt_le_dec a mean
       then if Qlt_le_dec b mean then 0 else 1
       else 0) + rising_crossings mean tl
  | _ => 0
  end%nat.

(** The text a label shows after a display operation. *)
Definition displayed (key : string) (r : result state) : option string :=
  match r with
  | Ok st => meas_labels st !! key
  | Raise _ => None
  end.

(** Every label of the measurement panel is present. *)
Definition has_labels (labels : gmap string string) : Prop :=
  Forall (fun k => is_Some (labels !! k)) measurement_keys.

(** The example buffer [(0,1), (1,3), (2,1)] of the specification. *)
Definition example_buffer : state :=
  mkState (mkScope [0; 1; 2] [1; 3; 1]) initial_labels.

(** A two-sample ramp: one crossing in a span of one time unit. *)
Definition ramp_buffer : state :=
  mkState (mkScope [0; 1] [0; 1]) initial_labels.

(** A single sample: zero time span. *)
Definition single_sample : state :=
  mkState (mkScope [5] [2]) initial_labels.

End Display.

(** ** Numeric entry validation ([validate_and_update_freq],
    [validate_and_update_amp]) *)

Module Entry.

(** What a Tcl variable holds: an integer stored by [IntVar.set], or the
    text of the entry widget bound to it. *)
Inductive tcl_value : Type :=
  | TclInt (z : Z)
  | TclText (s : string).

(** [int(x)] on a float: truncation toward zero. *)
Definition py_int (q : Q) : Z := Z.quot (Qnum q) (Zpos (Qden q)).

(** [tkinter.IntVar.get]:
    [try: return tk.getint(value)]
    [except (TypeError, TclError): return int(tk.getdouble(value))].
    A text that Tcl reads neither as an integer nor as a double makes
    [getdouble] raise [TclError], which [get] lets through. *)
Definition IntVar_get `{TclNumbers} (v : tcl_value) : result Z :=
  match v with
  | TclInt z => Ok z
  | TclText s =>
      match tk_getint s with
      | Some z => Ok z
      | None =>
          match tk_getdouble s with
          | Some q => Ok (py_int q)
          | None => Raise TclError
          end
      end
  end.

(** A [messagebox.showerror(title, message)] call. *)
Definition dialog : Type := (string * string)%type.

Record state : Type := mkState {
  freq_var : tcl_value;
  amp_var : tcl_value;
  demo_mode : bool;
  connected : bool;
  (** [self.ser]: [None], or a port handle whose writes succeed or raise. *)
  ser : option bool;
  (** Lines written to the serial port, oldest first. *)
  wire : list string;
  (** Error dialogs shown, oldest first. *)
  dialogs : list dialog
}.

Definition set_freq_var (v : tcl_value) (st : state) : state :=
  mkState v (amp_var st) (demo_mode st) (connected st) (ser st)
          (wire st) (dialogs st).

Definition set_amp_var (v : tcl_value) (st : state) : state :=
  mkState (freq_var st) v (demo_mode st) (connected st) (ser st)
          (wire st) (dialogs st).

Definition showerror (title message : string) (st : state) : state :=
  mkState (freq_var st) (amp_var st) (demo_mode st) (connected st) (ser st)
          (wire st) (dialogs st ++ [(title, message)]).

Definition ser_write (line : string) (st : state) : state :=
  mkState (freq_var st) (amp_var st) (demo_mode st) (connected st) (ser st)
          (wire st ++ [line]) (dialogs st).

(** [send_command]: nothing is written in demo mode or without a
    connection; an exception raised by the write is caught and printed. *)
Definition send_command (command : string) (st : state) : state :=
  if demo_mode st then st
  else if negb (connected st) || negb (bool_decide (is_Some (ser st))) then st
  else
    match ser st with
    | Some true => ser_write (command +:+ newline) st
    | _ => st
    end.

Definition update_frequency `{TclNumbers} (st : state) : result state :=
  freq ← IntVar_get (freq_var st);
  Ok (send_command ("FREQ:" +:+ pretty freq) st).

Definition update_amplitude `{TclNumbers} (st : state) : result state :=
  amp ← IntVar_get (amp_var st);
  Ok (send_command ("AMP:" +:+ pretty amp) st).

Definition clamp_freq (freq : Z) : Z :=
  if (freq <? 1)%Z then 1%Z
  else if (50000 <? freq)%Z then 50000%Z
  else freq.

Definition clamp_amp (amp : Z) : Z :=
  if (amp <? 0)%Z then 0%Z
  else if (255 <? amp)%Z then 255%Z
  else amp.

(** The [try] block, run until it ends or raises: the state reached and
    the exception in flight, if any. *)
Definition freq_try_block `{TclNumbers} (st : state) : state * option exn :=
  match IntVar_get (freq_var st) with
  | Raise e => (st, Some e)
  | Ok freq =>
      let st1 := set_freq_var (TclInt (clamp_freq freq)) st in
      match update_frequency st1 with
      | Ok st2 => (st2, None)
      | Raise e => (st1, Some e)
      end
  end.

(** [validate_and_update_freq]: only [ValueError] is handled; any other
    exception leaves the method. *)
Definition validate_and_update_freq `{TclNumbers} (st : state)
  : state * option exn :=
  match freq_try_block st with
  | (st', Some ValueError) =>
      (showerror "Invalid Input"
                 "Frequency must be a number between 1 and 50000 Hz"
                 (set_freq_var (TclInt 1000) st'), None)
  | r => r
  end.

Definition amp_try_block `{TclNumbers} (st : state) : state * option exn :=
  match IntVar_get (amp_var st) with
  | Raise e => (st, Some e)
  | Ok amp =>
      let st1 := set_amp_var (TclInt (clamp_amp amp)) st in
      match update_amplitude st1 with
      | Ok st2 => (st2, None)
      | Raise e => (st1, Some e)
      end
  end.

Definition validate_and_update_amp `{TclNumbers} (st : state)
  : state * option exn :=
  match amp_try_block st with
  | (st', Some ValueError) =>
      (showerror "Invalid Input"
                 "Amplitude must be a number between 0 and 255"
                 (set_amp_var (TclInt 200) st'), None)
  | r => r
  end.

(** The state after [create_function_generator_panel], with the entry
    texts as typed by the user. *)
Definition typed (freq_text amp_text : string) : state :=
  mkState (TclText freq_text) (TclText amp_text) false false None [] [].

End Entry.

(** ** Connection life cycle ([connect], [disconnect], [toggle_demo_mode]) *)

Module Conn.

Inductive widget_state : Type := NORMAL | DISABLED | READONLY.

Record state : Type := mkState {
  connected : bool;
  demo_mode : bool;
  running : bool;
  auto_capture : bool;
  (** [self.ser]: [None], or a handle that is open or closed. *)
  ser : option bool;
  port_var : string;
  connect_btn : widget_state;
  demo_btn : widget_state;
  port_combo : widget_state;
  status_text : string
}.

(** [__init__] followed by [create_ui]. *)
Definition initial (port : string) : state :=
  mkState false false false false None port NORMAL NORMAL READONLY
          "DISCONNECTED".

(** [toggle_run]: flips [running]; the worker thread it starts is not part
    of this slice. *)
Definition toggle_run (st : state) : state :=
  let r := negb (running st) in
  mkState (connected st) (demo_mode st) r r (ser st) (port_var st)
          (connect_btn st) (demo_btn st) (port_combo st) (status_text st).

(** [connect]: [opens] tells whether [serial.Serial(port, ...)] returns or
    raises. Without a port, or when the open raises, only a dialog is
    shown. *)
Definition connect (opens : bool) (st : state) : state :=
  if bool_decide (port_var st = ""%string) then st
  else if opens then
    mkState true false (running st) (auto_capture st) (Some true)
            (port_var st) (connect_btn st) DISABLED (port_combo st)
            "CONNECTED"
  else st.

Definition disconnect (st : state) : state :=
  let st1 := if running st then toggle_run st else st in
  let ser' := match ser st1 with Some _ => Some false | None => None end in
  mkState false (demo_mode st1) (running st1) (auto_capture st1) ser'
          (port_var st1) (connect_btn st1) NORMAL (port_combo st1)
          "DISCONNECTED".

Definition toggle_connection (opens : bool) (st : state) : state :=
  if connected st then disconnect st else connect opens st.

Definition toggle_demo_mode (st : state) : state :=
  let d := negb (demo_mode st) in
  if d then
    mkState (connected st) d (running st) (auto_capture st) (ser st)
            (port_var st) DISABLED (demo_btn st) DISABLED "DEMO MODE"
  else
    mkState (connected st) d (running st) (auto_capture st) (ser st)
            (port_var st) NORMAL (demo_btn st) READONLY "DISCONNECTED".

Definition select_port (p : string) (st : state) : state :=
  mkState (connected st) (demo_mode st) (running st) (auto_capture st)
          (ser st) p (connect_btn st) (demo_btn st) (port_combo st)
          (status_text st).

(** User events. A button only fires its command while its state is not
    [DISABLED]; the combobox only changes [port_var] while enabled. *)
Inductive step : state -> state -> Prop :=
  | step_connect_btn st opens :
      connect_btn st <> DISABLED ->
      step st (toggle_connection opens st)
  | step_demo_btn st :
      demo_btn st <> DISABLED ->
      step st (toggle_demo_mode st)
  | step_run_btn st :
      step st (toggle_run st)
  | step_port_combo st p :
      port_combo st <> DISABLED ->
      step st (select_port p st).

Inductive reachable (port : string) : state -> Prop :=
  | reach_initial : reachable port (initial port)
  | reach_step st st' :
      reachable port st -> step st st' -> reachable port st'.

(** What the widget states record about the two flags. *)
Definition consistent (st : state) : Prop :=
  (connected st = true ->
   demo_mode st = false /\ demo_btn st = DISABLED) /\
  (demo_mode st = true -> connect_btn st = DISABLED).

(** The state after a first successful press of CONNECT on port COM3. *)
Definition after_connect : state :=
  toggle_connection true (initial "COM3").

End Conn.

(** ** Demo synthesizer ([generate_demo_data]) *)

Module Synth.

Local Open Scope R_scope.

Definition samples : nat := 1000.

(** [np.linspace(start, stop, num)]: [num] evenly spaced points, both ends
    included. *)
Definition linspace (start stop : R) (num : nat) : list R :=
  (fun i => start + INR i * ((stop - start) / INR (num - 1))) <$> seq 0 num.

(** [np.sign]. *)
Definition np_sign (x : R) : R :=
  match total_order_T x 0 with
  | inleft (left _) => -1
  | inleft (right _) => 0
  | inright _ => 1
  end.

(** [x % 1]: the remainder takes the sign of the divisor, so it is
    [x - floor x]. *)
Definition mod1 (x : R) : R := x - IZR (Int_part x).

(** The [if]/[elif] chain on [wave_type], at one time point. *)
Definition signal_at (wave_type : string) (freq t : R) : R :=
  if bool_decide (wave_type = "SINE"%string) then
    sin (2 * PI * freq * t)
  else if bool_decide (wave_type = "SQUARE"%string) then
    np_sign (sin (2 * PI * freq * t))
  else if bool_decide (wave_type = "TRIANGLE"%string) then
    2 * Rabs (2 * mod1 (freq * t) - 1) - 1
  else if bool_decide (wave_type = "SAWTOOTH"%string) then
    2 * mod1 (freq * t) - 1
  else 0.

(** [generate_demo_data]. [freq_var], [amp_var] and [wave_var] are the
    values read from the three Tk variables; [noise i] is the [i]-th
    sample drawn by [np.random.normal(0, 0.015, samples)]. The result is
    the buffer stored in [self.scope_data]. *)
Definition generate_demo_data (freq_var amp_var : Z) (wave_var : string)
    (noise : nat -> R) : ScopeData R :=
  let time_data := linspace 0 100 samples in
  let freq := IZR freq_var in
  let amp := IZR amp_var / 255 in
  let wave_type := wave_var in
  let t := (fun x => x / 1000) <$> time_data in
  let signal := signal_at wave_type freq <$> t in
  let voltage_data := (fun s => 1.65 + amp * 1.5 * s) <$> signal in
  let noise_data := noise <$> seq 0 samples in
  let voltage_data := zip_with Rplus voltage_data noise_data in
  mkScope time_data voltage_data.

(** The [i]-th point of the time axis, in milliseconds. *)
Definition tick (i : nat) : R := INR i * (100 / 999).

(** *** The waveform formulas as the specification words them *)

Inductive waveform : Type := Sine | Square | Triangle | Sawtooth.

(** The radio-button value of each kind. *)
Definition wave_name (w : waveform) : string :=
  match w with
  | Sine => "SINE"
  | Square => "SQUARE"
  | Triangle => "TRIANGLE"
  | Sawtooth => "SAWTOOTH"
  end.

Definition frac (x : R) : R := frac_part x.

Definition sign (x : R) : R :=
  if Rlt_dec 0 x then 1 else if Rlt_dec x 0 then -1 else 0.

Definition spec_signal (w : waveform) (f t : R) : R :=
  match w with
  | Sine => sin (2 * PI * f * t)
  | Square => sign (sin (2 * PI * f * t))
  | Triangle => 2 * Rabs (2 * frac (f * t) - 1) - 1
  | Sawtooth => 2 * frac (f * t) - 1
  end.

End Synth.

(** ** Serial capture reader ([_capture_thread]) *)

Module Capture.

Import Decimal.

Local Open Scope Q_scope.

(** [',' in line]. *)
Fixpoint contains_comma (s : string) : bool :=
  match s with
  | EmptyString => false
  | String c s' => Ascii.eqb c "," || contains_comma s'
  end.

(** [line.split(',')]. *)
Fixpoint split_comma (s : string) : list string :=
  match s with
  | EmptyString => [EmptyString]
  | String c s' =>
      if Ascii.eqb c "," then EmptyString :: split_comma s'
      else
        match split_comma s' with
        | piece :: pieces => String c piece :: pieces
        | [] => [String c EmptyString]
        end
  end.

(** The three locals of the read loop. *)
Record loop_state : Type := mkLoop {
  time_data : list Q;
  voltage_data : list Q;
  capturing : bool
}.

(** The inner [try] statement. The two [append] calls run in order and
    mutate the lists in place, so the first survives when the second
    [float] raises; the bare [except] swallows every failure. *)
Definition append_sample `{PyFloat} (line : string) (ls : loop_state)
  : loop_state :=
  match split_comma line with
  | [t; v] =>
      match py_float t with
      | Some ft =>
          let ls1 := mkLoop (time_data ls ++ [ft / 1000]) (voltage_data ls)
                            (capturing ls) in
          match py_float v with
          | Some fv =>
              mkLoop (time_data ls1) (voltage_data ls1 ++ [fv])
                     (capturing ls1)
          | None => ls1
          end
      | None => ls
      end
  | _ => ls
  end.

(** What one [readline().decode()] gives: the text of a line, or an
    exception (I/O or decoding). *)
Inductive serial_event : Type :=
  | Received (text : string)
  | Failed.

(** The [while time.time() < timeout] loop over the lines that arrive
    before the deadline; iterations that find nothing waiting change
    nothing and are not listed. The end of the list is the timeout.
    [None]: an exception left the loop. *)
Fixpoint read_loop `{PyFloat} (input : list serial_event) (ls : loop_state)
  : option loop_state :=
  match input with
  | [] => Some ls
  | Failed :: _ => None
  | Received text :: rest =>
      let line := strip text in
      if bool_decide (line = "SCOPE_START"%string) then
        read_loop rest (mkLoop [] [] true)
      else if bool_decide (line = "SCOPE_END"%string) then
        Some ls
      else if capturing ls && contains_comma line then
        read_loop rest (append_sample line ls)
      else
        read_loop rest ls
  end.

(** [_capture_thread]: the buffer held by [self.scope_data] afterwards.
    When an exception reaches the outer handler nothing is published. *)
Definition capture_thread `{PyFloat} (input : list serial_event)
    (scope_data : ScopeData Q) : ScopeData Q :=
  match read_loop input (mkLoop [] [] false) with
  | Some ls => mkScope (time_data ls) (voltage_data ls)
  | None => scope_data
  end.

(** A line whose voltage field parses whenever its time field does. *)
Definition whole_or_rejected `{PyFloat} (line : string) : Prop :=
  forall t v ft,
    split_comma line = [t; v] -> py_float t = Some ft ->
    is_Some (py_float v).

Definition event_whole_or_rejected `{PyFloat} (ev : serial_event) : Prop :=
  match ev with
  | Received text => whole_or_rejected (strip text)
  | Failed => True
  end.

(** A capture in which one line has a time but no readable voltage. *)
Definition partial_line_capture : list serial_event :=
  [Received "SCOPE_START"; Received "1,abc"; Received "SCOPE_END"]%string.

(** The same defect with a good line after the bad one. *)
Definition shifted_capture : list serial_event :=
  [Received "SCOPE_START"; Received "1,abc"; Received "2,3.0";
   Received "SCOPE_END"]%string.

End Capture.

(** ** Shapes of a serial input *)

Module CaptureShape.

Import Decimal Capture.

(** A line that was read and is not the end sentinel. *)
Definition passes (ev : serial_event) : Prop :=
  match ev with
  | Received text => strip text <> "SCOPE_END"%string
  | Failed => False
  end.

(** A line that was read and is not the start sentinel. *)
Definition not_start (ev : serial_event) : Prop :=
  match ev with
  | Received text => strip text <> "SCOPE_START"%string
  | Failed => False
  end.

(** A line that carries time [t] (as sent) and voltage [v]: no sentinel,
    exactly two comma-separated fields, both accepted by [float]. *)
Definition sample_line `{PyFloat} (text : string) (sample : Q * Q) : Prop :=
  strip text <> "SCOPE_START"%string /\
  strip text <> "SCOPE_END"%string /\
  exists a b,
    split_comma (strip text) = [a; b] /\
    py_float a = Some (fst sample) /\ py_float b = Some (snd sample).

End CaptureShape.

(** ** The label texts written by [update_display] *)

Module DisplayShape.

Import Format Display.

(** The labels after the five [config] calls. *)
Definition written (m : measurements) (labels : gmap string string)
  : gmap string string :=
  <["freq" := format_fixed 1 (freq m)]>
    (<["vavg" := format_fixed 3 (v_avg m)]>
       (<["vpp" := format_fixed 3 (v_pp m)]>
          (<["vmin" := format_fixed 3 (v_min m)]>
             (<["vmax" := format_fixed 3 (v_max m)]> labels)))).

(** A buffer whose voltages all equal [c]. *)
Definition flat (c : Q) (v : list Q) : Prop := Forall (fun x => (x == c)%Q) v.

(** The state [update_display] leaves on the example buffer. *)
Definition example_shown : state :=
  match update_display example_buffer with
  | Ok st => st
  | Raise _ => example_buffer
  end.

End DisplayShape.

(** ** Function generator commands ([set_frequency], [update_waveform],
    [toggle_generator] and the widget events that reach them) *)

Module Generator.

Import Entry.

Record state : Type := mkGen {
  (** The variables, flags and port shared with the entry validation. *)
  panel : Entry.state;
  wave_var : string;
  gen_active : bool;
  (** Text of [self.gen_btn]. *)
  gen_btn : string
}.

(** After [create_function_generator_panel], on a given connection. *)
Definition initial (demo connected : bool) (ser : option bool) : state :=
  mkGen (Entry.mkState (TclInt 1000) (TclInt 200) demo connected ser [] [])
        "SINE" false "OUTPUT: OFF".

(** [set_frequency], the command of the quick buttons. *)
Definition set_frequency `{TclNumbers} (freq : Z) (st : Entry.state)
  : result Entry.state :=
  update_frequency (set_freq_var (TclInt freq) st).

Definition quick_frequencies : list Z := [100; 500; 1000; 5000]%Z.

Definition update_frequency_from_slider `{TclNumbers} (st : Entry.state)
  : result Entry.state :=
  update_frequency st.

Definition update_amplitude_from_slider `{TclNumbers} (st : Entry.state)
  : result Entry.state :=
  update_amplitude st.

Definition update_waveform (st : state) : state :=
  mkGen (send_command ("WAVE:" +:+ wave_var st) (panel st))
        (wave_var st) (gen_active st) (gen_btn st).

Definition toggle_generator (st : state) : state :=
  let g := negb (gen_active st) in
  if g then
    mkGen (send_command "GEN:ON" (panel st)) (wave_var st) g "OUTPUT: ON"
  else
    mkGen (send_command "GEN:OFF" (panel st)) (wave_var st) g "OUTPUT: OFF".

Definition with_panel (p : Entry.state) (st : state) : state :=
  mkGen p (wave_var st) (gen_active st) (gen_btn st).

(** A callback that raises is reported by Tk and the program goes on with
    the state reached. *)
Definition settle (st : Entry.state) (r : result Entry.state) : Entry.state :=
  match r with
  | Ok st' => st'
  | Raise _ => st
  end.

(** The values of the four radio buttons. *)
Definition wave_values : list string :=
  ["SINE"; "SQUARE"; "TRIANGLE"; "SAWTOOTH"]%string.

(** What the user can do on the panel. A scale and a radio button store
    their value in the variable before calling their command; the scales
    run from 1 to 50000 and from 0 to 255. *)
Inductive event : Type :=
  | TypeFreq (text : string)
  | TypeAmp (text : string)
  | ValidateFreq
  | ValidateAmp
  | QuickFreq (freq : Z)
  | SlideFreq (value : Z)
  | SlideAmp (value : Z)
  | SelectWave (value : string)
  | ToggleGenerator.

Definition possible (ev : event) : Prop :=
  match ev with
  | QuickFreq freq => In freq quick_frequencies
  | SlideFreq value => (1 <= value <= 50000)%Z
  | SlideAmp value => (0 <= value <= 255)%Z
  | SelectWave value => In value wave_values
  | _ => True
  end.

Definition handle `{TclNumbers} (ev : event) (st : state) : state :=
  match ev with
  | TypeFreq text => with_panel (set_freq_var (TclText text) (panel st)) st
  | TypeAmp text => with_panel (set_amp_var (TclText text) (panel st)) st
  | ValidateFreq => with_panel (fst (validate_and_update_freq (panel st))) st
  | ValidateAmp => with_panel (fst (validate_and_update_amp (panel st))) st
  | QuickFreq freq =>
      with_panel (settle (panel st) (set_frequency freq (panel st))) st
  | SlideFreq value =>
      let p := set_freq_var (TclInt value) (panel st) in
      with_panel (settle p (update_frequency_from_slider p)) st
  | SlideAmp value =>
      let p := set_amp_var (TclInt value) (panel st) in
      with_panel (settle p (update_amplitude_from_slider p)) st
  | SelectWave value =>
      update_waveform (mkGen (panel st) value (gen_active st) (gen_btn st))
  | ToggleGenerator => toggle_generator st
  end.

(** The events of a session, oldest first. *)
Definition run `{TclNumbers} (evs : list event) (st : state) : state :=
  fold_left (fun s ev => handle ev s) evs st.

(** *** The text protocol *)

Inductive command : Type :=
  | FREQ (n : Z)
  | AMP (n : Z)
  | WAVE (w : string)
  | GEN (on : bool).

Definition encode (c : command) : string :=
  match c with
  | FREQ n => "FREQ:" +:+ pretty n
  | AMP n => "AMP:" +:+ pretty n
  | WAVE w => "WAVE:" +:+ w
  | GEN true => "GEN:ON"
  | GEN false => "GEN:OFF"
  end.

(** The parameter ranges of the data model. *)
Definition in_range (c : command) : Prop :=
  match c with
  | FREQ n => (1 <= n <= 50000)%Z
  | AMP n => (0 <= n <= 255)%Z
  | WAVE w => In w wave_values
  | GEN _ => True
  end.

(** A line on the wire that is a well-formed command in range. *)
Definition protocol_line (line : string) : Prop :=
  exists c, in_range c /\ line = encode c +:+ newline.

(** The last [GEN] command among the lines, if any. *)
Definition gen_line (line : string) : option bool :=
  if bool_decide (line = "GEN:ON" +:+ newline) then Some true
  else if bool_decide (line = "GEN:OFF" +:+ newline) then Some false
  else None.

Fixpoint last_gen (lines : list string) : option bool :=
  match lines with
  | [] => None
  | line :: rest =>
      match last_gen rest with
      | Some b => Some b
      | None => gen_line line
      end
  end.

(** The link is up: not in demo mode, connected, and writes succeed. *)
Definition link_up (p : Entry.state) : bool :=
  negb (demo_mode p) && connected p && bool_decide (ser p = Some true).

(** The line a command makes on the wire. *)
Definition wire_line (c : command) : string := encode c +:+ newline.

(** The command an event is meant to send, if any. *)
Definition emitted `{TclNumbers} (ev : event) (st : state) : list command :=
  match ev with
  | TypeFreq _ | TypeAmp _ => []
  | ValidateFreq =>
      match IntVar_get (freq_var (panel st)) with
      | Ok z => [FREQ (clamp_freq z)]
      | Raise _ => []
      end
  | ValidateAmp =>
      match IntVar_get (amp_var (panel st)) with
      | Ok z => [AMP (clamp_amp z)]
      | Raise _ => []
      end
  | QuickFreq freq => [FREQ freq]
  | SlideFreq value => [FREQ value]
  | SlideAmp value => [AMP value]
  | SelectWave value => [WAVE value]
  | ToggleGenerator => [GEN (negb (gen_active st))]
  end.

(** The button and the last [GEN] command on the wire tell the same. *)
Definition output_agrees (st : state) : Prop :=
  match last_gen (wire (panel st)) with
  | Some on => gen_active st = on
  | None => gen_active st = false
  end.

(** A short session used as an example. *)
Definition example_session : list event :=
  [TypeFreq "60000"; ValidateFreq; ToggleGenerator; SelectWave "SQUARE";
   SlideAmp 17; QuickFreq 500; TypeAmp "abc"; ValidateAmp]%string.

End Generator.

(** ** Start-up port detection ([refresh_ports], [check_startup]) *)

Module Startup.

(** An entry of [serial.tools.list_ports.comports()]. *)
Record port_info : Type := mkPort {
  device : string;
  description : string
}.

(** [x in s] on strings. *)
Fixpoint contains (x s : string) : bool :=
  String.prefix x s ||
  match s with
  | EmptyString => false
  | String _ s' => contains x s'
  end.

Definition markers : list string := ["USB"; "Serial"; "CH340"; "CP210"]%string.

(** [any(x in port.description for x in [...])]. *)
Definition looks_like_esp (p : port_info) : bool :=
  existsb (fun x => contains x (description p)) markers.

(** [refresh_ports]: the combobox shows the devices and, when there is
    one, selects the first, which stores it in [port_var]. *)
Definition refresh_ports (ports : list port_info) (port_var : string)
  : string :=
  match ports with
  | [] => port_var
  | p :: _ => device p
  end.

(** The [for port in ports] loop: [esp_found] and [port_var] after it. *)
Fixpoint scan_ports (ports : list port_info) (port_var : string)
  : bool * string :=
  match ports with
  | [] => (false, port_var)
  | p :: rest =>
      if looks_like_esp p then (true, device p)
      else scan_ports rest port_var
  end.

(** The callback handed to [root.after(500, ...)]. *)
Inductive scheduled : Type :=
  | ToggleDemoMode
  | ToggleConnection.

(** [check_startup]: [yes] is the answer to the question it asks. *)
Definition check_startup (ports : list port_info) (yes : bool)
    (port_var : string) : string * option scheduled :=
  let '(esp_found, port_var') := scan_ports ports port_var in
  if negb esp_found then
    (port_var', if yes then Some ToggleDemoMode else None)
  else
    (port_var', if yes then Some ToggleConnection else None).

(** From [__init__] to the moment the scheduled callback has run, with no
    user event in between: [create_ui] (which calls [refresh_ports]),
    [check_startup], and the callback. [opens] tells whether the serial
    port can be opened. *)
Definition boot (ports : list port_info) (yes opens : bool) : Conn.state :=
  let p0 := refresh_ports ports ""%string in
  let '(p1, callback) := check_startup ports yes p0 in
  let st := Conn.select_port p1 (Conn.initial p0) in
  match callback with
  | Some ToggleDemoMode => Conn.toggle_demo_mode st
  | Some ToggleConnection => Conn.toggle_connection opens st
  | None => st
  end.

(** No port of the list looks like an ESP32 adapter. *)
Definition none_like_esp (ports : list port_info) : Prop :=
  Forall (fun q => looks_like_esp q = false) ports.

(** [p] is the first port of the list that looks like an ESP32 adapter. *)
Definition first_like_esp (p : port_info) (ports : list port_info) : Prop :=
  exists pre post,
    ports = pre ++ p :: post /\ none_like_esp pre /\ looks_like_esp p = true.

(** A machine with a Bluetooth port and a CH340 adapter. *)
Definition example_ports : list port_info :=
  [mkPort "COM1" "Standard Serial over Bluetooth link";
   mkPort "COM7" "USB-SERIAL CH340 (COM7)"]%string.

Definition builtin_only : list port_info :=
  [mkPort "/dev/ttyS0" "n/a"]%string.

End Startup.

(** ** What the widgets show of the connection *)

Module ConnShape.

Import Conn.

(** The status line that belongs to the two flags. *)
Definition status_of (connected demo_mode : bool) : string :=
  if connected then "CONNECTED"%string
  else if demo_mode then "DEMO MODE"%string
  else "DISCONNECTED"%string.

Record coherent (st : state) : Prop := mkCoherent {
  run_flags : running st = auto_capture st;
  port_open : connected st = true <-> ser st = Some true;
  demo_locked : demo_btn st = (if connected st then DISABLED else NORMAL);
  connect_locked :
    connect_btn st = (if demo_mode st then DISABLED else NORMAL);
  combo_locked :
    port_combo st = (if demo_mode st then DISABLED else READONLY);
  status_shown : status_text st = status_of (connected st) (demo_mode st);
  exclusive : connected st = true -> demo_mode st = false
}.

End ConnShape.

(** ** Demo synthesizer in floating-point arithmetic

    [generate_demo_data] once more, now with the reads of the Tk
    variables and with every arithmetic step as the floating-point
    operation the interpreter performs. The operations are a parameter:
    the text below fixes which operations are applied to what and in
    which order, not how each one rounds. *)

Class FloatOps : Type := {
  float : Type;
  (** An integer operand converted to a float. *)
  of_int : Z -> float;
  (** A decimal literal of the source text. *)
  literal : Q -> float;
  fadd : float -> float -> float;
  fsub : float -> float -> float;
  fmul : float -> float -> float;
  fdiv : float -> float -> float;
  (** [x % y]. *)
  fmod : float -> float -> float;
  (** [np.sin], [np.sign], [np.abs] on one element. *)
  fsin : float -> float;
  fsign : float -> float;
  fabs : float -> float;
  (** [np.pi]. *)
  fpi : float;
  (** [np.linspace(start, stop, num)]: [num] points, the first [start]
      and, from two points on, the last [stop]. *)
  linspace : float -> float -> nat -> list float;
  linspace_length :
    forall start stop num, length (linspace start stop num) = num;
  linspace_first :
    forall start stop num,
      (0 < num)%nat -> linspace start stop num !! 0%nat = Some start;
  linspace_last :
    forall start stop num,
      (1 < num)%nat -> linspace start stop num !! (num - 1)%nat = Some stop
}.

Module SynthFloat.

Import Entry.

Definition samples : nat := 1000.

Section Ops.

Context `{TclNumbers} `{FloatOps}.

(** [2 * np.pi * freq * t], evaluated from left to right. *)
Definition phase (freq : Z) (t : float) : float :=
  fmul (fmul (fmul (of_int 2) fpi) (of_int freq)) t.

(** The [if]/[elif] chain on [wave_type], at one time point. *)
Definition signal_at (wave_type : string) (freq : Z) (t : float) : float :=
  if bool_decide (wave_type = "SINE"%string) then
    fsin (phase freq t)
  else if bool_decide (wave_type = "SQUARE"%string) then
    fsign (fsin (phase freq t))
  else if bool_decide (wave_type = "TRIANGLE"%string) then
    fsub (fmul (of_int 2)
               (fabs (fsub (fmul (of_int 2)
                                 (fmod (fmul (of_int freq) t) (of_int 1)))
                           (of_int 1))))
         (of_int 1)
  else if bool_decide (wave_type = "SAWTOOTH"%string) then
    fsub (fmul (of_int 2) (fmod (fmul (of_int freq) t) (of_int 1)))
         (of_int 1)
  else of_int 0.

(** [generate_demo_data]: [freq_var] and [amp_var] are the two Tk
    variables, read with [IntVar.get]; [noise i] is the [i]-th sample of
    [np.random.normal(0, 0.015, samples)]. [Ok d]: the buffer stored in
    [self.scope_data]; [Raise e]: the exception that leaves the method
    before anything is stored. *)
Definition generate_demo_data (freq_var amp_var : tcl_value)
    (wave_var : string) (noise : nat -> float) : result (ScopeData float) :=
  let time_data := linspace (of_int 0) (of_int 100) samples in
  freq ← IntVar_get freq_var;
  a ← IntVar_get amp_var;
  let amp := fdiv (of_int a) (literal 255) in
  let wave_type := wave_var in
  let t := (fun x => fdiv x (literal 1000)) <$> time_data in
  let signal := signal_at wave_type freq <$> t in
  let voltage_data :=
    (fun s => fadd (literal 1.65) (fmul (fmul amp (literal 1.5)) s))
      <$> signal in
  let noise_data := noise <$> seq 0 samples in
  let voltage_data := zip_with fadd voltage_data noise_data in
  Ok (mkScope time_data voltage_data).

(** *** The formulas as the specification words them, in the same
    arithmetic *)

(** frac(x): the remainder of [x] modulo 1. *)
Definition frac (x : float) : float := fmod x (of_int 1).

Definition spec_signal (w : Synth.waveform) (f : Z) (t : float) : float :=
  match w with
  | Synth.Sine => fsin (phase f t)
  | Synth.Square => fsign (fsin (phase f t))
  | Synth.Triangle =>
      fsub (fmul (of_int 2)
                 (fabs (fsub (fmul (of_int 2) (frac (fmul (of_int f) t)))
                             (of_int 1))))
           (of_int 1)
  | Synth.Sawtooth =>
      fsub (fmul (of_int 2) (frac (fmul (of_int f) t))) (of_int 1)
  end.

(** 1.65 + (a/255) * 1.5 * signal + noise. *)
Definition spec_voltage (a : Z) (signal noise_sample : float) : float :=
  fadd (fadd (literal 1.65)
             (fmul (fmul (fdiv (of_int a) (literal 255)) (literal 1.5))
                   signal))
       noise_sample.

End Ops.

(** *** The same operations over the real numbers, without rounding *)

#[global, refine] Instance real_ops : FloatOps := {|
  float := R;
  of_int := IZR;
  literal := Q2R;
  fadd := Rplus;
  fsub := Rminus;
  fmul := Rmult;
  fdiv := Rdiv;
  fmod := fun x y => (x - y * IZR (Int_part (x / y)))%R;
  fsin := sin;
  fsign := Synth.np_sign;
  fabs := Rabs;
  fpi := PI;
  linspace := Synth.linspace
|}.
Proof.
  - intros start stop num. unfold Synth.linspace.
    now rewrite length_fmap, length_seq.
  - intros start stop num Hn. unfold Synth.linspace.
    rewrite list_lookup_fmap, lookup_seq_lt by exact Hn.
    cbn [fmap option_fmap option_map Nat.add INR]. f_equal. lra.
  - intros start stop num Hn. unfold Synth.linspace.
    rewrite list_lookup_fmap, lookup_seq_lt by lia.
    cbn [fmap option_fmap option_map Nat.add]. f_equal.
    assert (INR (num - 1) <> 0%R) by (apply not_0_INR; lia).
    now field.
Defined.

End SynthFloat.

(** ** A captured frame on its way to the display *)

Module PipelineShape.

Import Capture Display.

(** A frame of two samples, 10 ms apart: 1.5 V, then 2.5 V. *)
Definition two_sample_frame : list serial_event :=
  [Received "SCOPE_START"; Received "0,1.5"; Received "10,2.5";
   Received "SCOPE_END"]%string.

(** The display state right after [_capture_thread] published the frame. *)
Definition captured_frame : state :=
  mkState (capture_thread two_sample_frame (mkScope [] [])) initial_labels.

(** The same two samples with the times left in milliseconds, as
    [generate_demo_data] stores them. *)
Definition frame_in_ms : state :=
  mkState (mkScope [0; 10] [3 # 2; 5 # 2])%Q initial_labels.

End PipelineShape.

(** * Properties *)

(** ** Measurement engine *)

Module DisplayProps.

Import Format Display.

Local Open Scope Q_scope.

(** *** Comparisons *)

Lemma Qlt_bool_true (a b : Q) : QMicromega.Qlt_bool a b = true <-> a < b.
Proof. apply QMicromega.Qlt_bool_iff. Qed.

Lemma Qlt_bool_false (a b : Q) : QMicromega.Qlt_bool a b = false <-> b <= a.
Proof.
  rewrite <- not_true_iff_false, Qlt_bool_true. split.
  - apply Qnot_lt_le.
  - apply Qle_not_lt.
Qed.

Lemma Qle_bool_false (a b : Q) : Qle_bool a b = false <-> b < a.
Proof.
  rewrite <- not_true_iff_false, Qle_bool_iff. split.
  - apply Qnot_le_lt.
  - apply Qlt_not_le.
Qed.

(** *** [max] and [min] *)

Section Extremum.

(** [better m y]: the scan replaces the running extremum [m] by [y]. *)
Variable better : Q -> Q -> bool.
(** The order in which the result dominates every element. *)
Variable dominates : Q -> Q -> Prop.
Hypothesis dominates_refl : forall x, dominates x x.
Hypothesis dominates_trans :
  forall x y z, dominates x y -> dominates y z -> dominates x z.
Hypothesis better_true : forall m y, better m y = true -> dominates y m.
Hypothesis better_false : forall m y, better m y = false -> dominates m y.

Let scan := fold_left (fun m y => if better m y then y else m).

Lemma scan_member (tl : list Q) (x : Q) : In (scan tl x) (x :: tl).
Proof.
  revert x. induction tl as [|y tl IH]; intros x; simpl.
  - now left.
  - destruct (better x y).
    + right. apply IH.
    + destruct (IH x) as [E|E]; [left; exact E | right; right; exact E].
Qed.

Lemma scan_dominates_start (tl : list Q) (x : Q) : dominates (scan tl x) x.
Proof.
  revert x. induction tl as [|y tl IH]; intros x; simpl.
  - apply dominates_refl.
  - destruct (better x y) eqn:E.
    + eapply dominates_trans; [apply IH | now apply better_true].
    + apply IH.
Qed.

Lemma scan_dominates (tl : list Q) (x z : Q) :
  In z (x :: tl) -> dominates (scan tl x) z.
Proof.
  revert x. induction tl as [|y tl IH]; intros x [->|Hin]; simpl.
  - apply dominates_refl.
  - destruct Hin.
  - destruct (better z y) eqn:E.
    + eapply dominates_trans; [apply scan_dominates_start|].
      now apply better_true.
    + apply scan_dominates_start.
  - destruct (better x y) eqn:E.
    + apply IH. exact Hin.
    + destruct Hin as [->|Hin].
      * eapply dominates_trans; [apply scan_dominates_start|].
        now apply better_false.
      * apply IH. now right.
Qed.

End Extremum.

Lemma py_max_spec (l : list Q) :
  l <> [] -> exists m, py_max l = Ok m /\ is_maximum m l.
Proof.
  destruct l as [|x tl]; [congruence|]. intros _.
  eexists. split; [reflexivity|]. split.
  - apply scan_member.
  - intros z Hz.
    apply (scan_dominates (fun m y => QMicromega.Qlt_bool m y)
                          (fun a b => b <= a)); auto.
    + intros a. apply Qle_refl.
    + intros a b c Hab Hbc. eapply Qle_trans; eauto.
    + intros m y H. apply Qlt_bool_true in H. now apply Qlt_le_weak.
    + intros m y H. now apply Qlt_bool_false in H.
Qed.

Lemma py_min_spec (l : list Q) :
  l <> [] -> exists m, py_min l = Ok m /\ is_minimum m l.
Proof.
  destruct l as [|x tl]; [congruence|]. intros _.
  eexists. split; [reflexivity|]. split.
  - apply (scan_member (fun m y => QMicromega.Qlt_bool y m)).
  - intros z Hz.
    apply (scan_dominates (fun m y => QMicromega.Qlt_bool y m)
                          (fun a b => a <= b)); auto.
    + intros a. apply Qle_refl.
    + intros a b c Hab Hbc. eapply Qle_trans; eauto.
    + intros m y H. apply Qlt_bool_true in H. now apply Qlt_le_weak.
    + intros m y H. now apply Qlt_bool_false in H.
Qed.

(** *** The mean *)

Lemma fold_left_Qplus (l : list Q) (acc : Q) :
  fold_left Qplus l acc == acc + foldr Qplus 0 l.
Proof.
  revert acc. induction l as [|x l IH]; intros acc; simpl.
  - ring.
  - rewrite IH. ring.
Qed.

Lemma np_mean_arith_mean (l : list Q) : np_mean l == arith_mean l.
Proof.
  unfold np_mean, arith_mean, py_sum.
  rewrite fold_left_Qplus. now rewrite Qplus_0_l.
Qed.

(** *** The crossing loop *)

Lemma crossing_test (a b m : Q) :
  (if QMicromega.Qlt_bool a m && Qle_bool m b then 1 else 0)%nat
  = (if Qlt_le_dec a m then if Qlt_le_dec b m then 0 else 1 else 0)%nat.
Proof.
  destruct (Qlt_le_dec a m) as [Ha|Ha].
  - apply Qlt_bool_true in Ha. rewrite Ha. simpl.
    destruct (Qlt_le_dec b m) as [Hb|Hb].
    + apply Qle_bool_false in Hb. now rewrite Hb.
    + apply Qle_bool_iff in Hb. now rewrite Hb.
  - apply Qlt_bool_false in Ha. now rewrite Ha.
Qed.

Lemma crossing_loop_from (rest pre : list Q) (a m : Q) (acc : nat) :
  fold_left (crossing_step (pre ++ a :: rest) m)
            (seq (S (length pre)) (length rest)) acc
  = (acc + rising_crossings m (a :: rest))%nat.
Proof.
  revert pre a acc. induction rest as [|b rest IH]; intros pre a acc.
  - simpl. lia.
  - cbn [length seq fold_left].
    replace (pre ++ a :: b :: rest) with ((pre ++ [a]) ++ b :: rest)
      by now rewrite <- app_assoc.
    replace (S (S (length pre))) with (S (length (pre ++ [a])))
      by (rewrite length_app; simpl; lia).
    rewrite IH.
    unfold crossing_step.
    replace (S (length pre) - 1)%nat with (length pre) by lia.
    rewrite <- app_assoc. cbn [app].
    rewrite list_lookup_middle by reflexivity.
    replace (pre ++ a :: b :: rest) with ((pre ++ [a]) ++ b :: rest)
      by now rewrite <- app_assoc.
    rewrite list_lookup_middle by (rewrite length_app; simpl; lia).
    cbn [rising_crossings].
    rewrite <- crossing_test.
    destruct (QMicromega.Qlt_bool a m && Qle_bool m b); lia.
Qed.

Lemma count_crossings_rising (v : list Q) (m : Q) :
  count_crossings v m = rising_crossings m v.
Proof.
  destruct v as [|a rest]; [reflexivity|].
  unfold count_crossings. cbn [length].
  replace (S (length rest) - 1)%nat with (length rest) by lia.
  apply (crossing_loop_from rest [] a m 0).
Qed.

Lemma rising_crossings_mean_eq (m m' : Q) (l : list Q) :
  m == m' -> rising_crossings m l = rising_crossings m' l.
Proof.
  intros E. induction l as [|a [|b tl] IH]; try reflexivity.
  cbn [rising_crossings] in *. rewrite IH. f_equal.
  destruct (Qlt_le_dec a m) as [H1|H1], (Qlt_le_dec a m') as [H2|H2],
           (Qlt_le_dec b m) as [H3|H3], (Qlt_le_dec b m') as [H4|H4];
    try reflexivity; exfalso; lra.
Qed.

(** *** The frequency estimate *)

Lemma estimate_freq_positive (c : nat) (d : Q) :
  0 < d -> estimate_freq c d = Ok (inject_Z (Z.of_nat c) / d * 1000).
Proof.
  intros Hd. unfold estimate_freq, py_div.
  apply Qlt_bool_true in Hd as Hb. rewrite Hb.
  destruct (Qeq_bool d 0) eqn:E; [|reflexivity].
  apply Qeq_bool_iff in E. rewrite E in Hd. now apply Qlt_irrefl in Hd.
Qed.

Lemma estimate_freq_nonpositive (c : nat) (d : Q) :
  d <= 0 -> estimate_freq c d = Ok 0.
Proof.
  intros Hd. unfold estimate_freq.
  apply Qlt_bool_false in Hd. now rewrite Hd.
Qed.

Lemma estimate_freq_total (c : nat) (d : Q) :
  exists f, estimate_freq c d = Ok f.
Proof.
  destruct (Qlt_le_dec 0 d) as [H|H].
  - eexists. now apply estimate_freq_positive.
  - eexists. now apply estimate_freq_nonpositive.
Qed.

(** *** Writing the labels *)

Lemma label_config_present (k text : string) (labels : gmap string string) :
  is_Some (labels !! k) ->
  label_config k text labels = Ok (<[k := text]> labels).
Proof. intros [x Hx]. unfold label_config. now rewrite Hx. Qed.

Lemma show_measurements_ok (m : measurements) (labels : gmap string string) :
  has_labels labels ->
  show_measurements m labels =
    Ok (<["freq" := format_fixed 1 (freq m)]>
        (<["vavg" := format_fixed 3 (v_avg m)]>
         (<["vpp" := format_fixed 3 (v_pp m)]>
          (<["vmin" := format_fixed 3 (v_min m)]>
           (<["vmax" := format_fixed 3 (v_max m)]> labels))))).
Proof.
  intros H. unfold has_labels, measurement_keys in H.
  repeat match goal with
         | H : Forall _ (_ :: _) |- _ => apply Forall_cons in H as [? H]
         end.
  unfold show_measurements.
  repeat (rewrite label_config_present;
          [cbn [mbind result_bind]
          | repeat (apply lookup_insert_is_Some'; right); assumption]).
  reflexivity.
Qed.

Lemma initial_labels_present : has_labels initial_labels.
Proof.
  unfold has_labels, measurement_keys.
  repeat constructor; vm_compute; eauto.
Qed.

(** *** [update_display] on a buffer with data *)

Lemma measure_ok (td vd : list Q) :
  vd <> [] ->
  exists vmax vmin f,
    py_max vd = Ok vmax /\ py_min vd = Ok vmin /\
    estimate_freq (count_crossings vd (np_mean vd))
                  (List.last td 0 - List.hd 0 td) = Ok f /\
    measure td vd =
      Ok (mkMeas vmax vmin (vmax - vmin) (np_mean vd)
                 (count_crossings vd (np_mean vd))
                 (List.last td 0 - List.hd 0 td) f).
Proof.
  intros Hvd.
  destruct (py_max_spec vd Hvd) as (vmax & Hmax & _).
  destruct (py_min_spec vd Hvd) as (vmin & Hmin & _).
  destruct (estimate_freq_total (count_crossings vd (np_mean vd))
              (List.last td 0 - List.hd 0 td)) as (f & Hf).
  exists vmax, vmin, f. repeat split; try assumption.
  unfold measure. rewrite Hmax, Hmin. cbn [mbind result_bind].
  now rewrite Hf.
Qed.

Lemma update_display_nonempty (st : state) (m : measurements) :
  time (scope_data st) <> [] ->
  has_labels (meas_labels st) ->
  measure (time (scope_data st)) (voltage (scope_data st)) = Ok m ->
  exists st',
    update_display st = Ok st' /\
    scope_data st' = scope_data st /\
    meas_labels st' !! "vmax"%string = Some (format_fixed 3 (v_max m)) /\
    meas_labels st' !! "vmin"%string = Some (format_fixed 3 (v_min m)) /\
    meas_labels st' !! "vpp"%string = Some (format_fixed 3 (v_pp m)) /\
    meas_labels st' !! "vavg"%string = Some (format_fixed 3 (v_avg m)) /\
    meas_labels st' !! "freq"%string = Some (format_fixed 1 (freq m)).
Proof.
  intros Ht Hl Hm. unfold update_display.
  destruct (time (scope_data st)) as [|t0 ts] eqn:Et; [congruence|].
  rewrite Hm. cbn [mbind result_bind].
  rewrite (show_measurements_ok m _ Hl). cbn [mbind result_bind].
  eexists. split; [reflexivity|]. cbn [scope_data meas_labels].
  repeat split; by simplify_map_eq.
Qed.

Lemma nonempty_voltage (d : ScopeData Q) :
  time d <> [] -> same_length d -> voltage d <> [].
Proof.
  unfold same_length. intros Ht Hlen Hv. rewrite Hv in Hlen.
  destruct (time d); [congruence | discriminate].
Qed.

(** *** Peak, trough, peak-to-peak and mean *)



(** *** Zero time span *)

(** C10: on a non-empty buffer whose last time stamp is not after its
    first, [update_display] completes without raising (no division is
    attempted) and the frequency label shows 0. *)
Theorem zero_span_frequency (st : state) :
  let t := time (scope_data st) in
  t <> [] ->
  same_length (scope_data st) ->
  has_labels (meas_labels st) ->
  List.last t 0 <= List.hd 0 t ->
  (exists st', update_display st = Ok st') /\
  estimate_freq (count_crossings (voltage (scope_data st))
                                 (np_mean (voltage (scope_data st))))
                (List.last t 0 - List.hd 0 t) = Ok 0 /\
  displayed "freq" (update_display st) = Some "0.0"%string.
Proof.
  cbv zeta. intros Ht Hlen Hl Hspan.
  assert (Hd : List.last (time (scope_data st)) 0
               - List.hd 0 (time (scope_data st)) <= 0) by lra.
  pose proof (nonempty_voltage _ Ht Hlen) as Hv.
  destruct (measure_ok (time (scope_data st)) _ Hv)
    as (vmax & vmin & f & _ & _ & Hf & Hm).
  rewrite (estimate_freq_nonpositive _ _ Hd) in Hf.
  injection Hf as <-.
  destruct (update_display_nonempty st _ Ht Hl Hm)
    as (st' & Hup & _ & _ & _ & _ & _ & Hfreq).
  rewrite Hup. cbn [displayed freq] in *.
  split; [eauto|]. split; [now apply estimate_freq_nonpositive|].
  exact Hfreq.
Qed.

Lemma zero_span_frequency_witness :
  displayed "freq" (update_display single_sample) = Some "0.0"%string.
Proof.
  apply (zero_span_frequency single_sample).
  - discriminate.
  - reflexivity.
  - exact initial_labels_present.
  - cbn. lra.
Defined.

(** *** Clearing, and the empty buffer *)

(** Clearing publishes sequences of equal length. *)
Lemma clear_display_same_length (st : state) :
  same_length (scope_data (clear_display st)).
Proof. reflexivity. Qed.

(** C8: [clear_display] leaves both sequences with length zero and every
    measurement label showing the placeholder; [update_display] on an
    empty buffer returns the state as it was, labels included. *)
Theorem clear_display_placeholders :
  (forall st : state,
     let st' := clear_display st in
     length (time (scope_data st')) = 0%nat /\
     length (voltage (scope_data st')) = 0%nat /\
     (forall k, is_Some (meas_labels st !! k) ->
                meas_labels st' !! k = Some "----"%string) /\
     (forall k text, meas_labels st' !! k = Some text ->
                     text = "----"%string))
  /\
  (forall st : state,
     time (scope_data st) = [] -> update_display st = Ok st).
Proof.
  split.
  - intros st st'. subst st'. unfold clear_display. cbn.
    repeat split.
    + intros k [x Hx]. now rewrite lookup_fmap, Hx.
    + intros k text. rewrite lookup_fmap.
      destruct (meas_labels st !! k); cbn; congruence.
  - intros st Ht. unfold update_display. now rewrite Ht.
Qed.

Lemma clear_display_placeholders_witness :
  update_display (clear_display example_buffer)
  = Ok (clear_display example_buffer).
Proof.
  apply (proj2 clear_display_placeholders (clear_display example_buffer)).
  reflexivity.
Defined.

End DisplayProps.

(** ** Numeric entry validation *)

Module EntryProps.

Import Entry.

Section AnyTcl.

Context `{TclNumbers}.

(** [IntVar.get] returns an integer or raises [TclError]; it has no way
    to raise [ValueError]. *)
Lemma IntVar_get_outcome (v : tcl_value) :
  (exists z, IntVar_get v = Ok z) \/ IntVar_get v = Raise TclError.
Proof.
  destruct v as [z|s]; cbn; [eauto|].
  destruct (tk_getint s); [eauto|].
  destruct (tk_getdouble s); eauto.
Qed.

Lemma clamp_freq_range (z : Z) : (1 <= clamp_freq z <= 50000)%Z.
Proof. unfold clamp_freq. repeat case_match; lia. Qed.

Lemma clamp_amp_range (z : Z) : (0 <= clamp_amp z <= 255)%Z.
Proof. unfold clamp_amp. repeat case_match; lia. Qed.

(** When the variable reads as an integer, the clamped value is stored
    and sent. *)
Lemma validate_freq_integer (st : state) (z : Z) :
  IntVar_get (freq_var st) = Ok z ->
  validate_and_update_freq st =
    (send_command ("FREQ:" +:+ pretty (clamp_freq z))
                  (set_freq_var (TclInt (clamp_freq z)) st), None).
Proof.
  intros Hz. unfold validate_and_update_freq, freq_try_block.
  rewrite Hz. reflexivity.
Qed.

Lemma validate_amp_integer (st : state) (z : Z) :
  IntVar_get (amp_var st) = Ok z ->
  validate_and_update_amp st =
    (send_command ("AMP:" +:+ pretty (clamp_amp z))
                  (set_amp_var (TclInt (clamp_amp z)) st), None).
Proof.
  intros Hz. unfold validate_and_update_amp, amp_try_block.
  rewrite Hz. reflexivity.
Qed.

(** When the variable does not read as a number, the [TclError] leaves
    the method: nothing is reset and no dialog is shown. *)
Lemma validate_freq_not_a_number (st : state) :
  IntVar_get (freq_var st) = Raise TclError ->
  validate_and_update_freq st = (st, Some TclError).
Proof.
  intros Hz. unfold validate_and_update_freq, freq_try_block.
  rewrite Hz. reflexivity.
Qed.

Lemma validate_amp_not_a_number (st : state) :
  IntVar_get (amp_var st) = Raise TclError ->
  validate_and_update_amp st = (st, Some TclError).
Proof.
  intros Hz. unfold validate_and_update_amp, amp_try_block.
  rewrite Hz. reflexivity.
Qed.

Lemma send_command_dialogs (c : string) (st : state) :
  dialogs (send_command c st) = dialogs st.
Proof.
  unfold send_command. repeat case_match; reflexivity.
Qed.

(** The [except ValueError] handler is never entered. *)
Lemma validate_freq_never_shows_dialog (st : state) :
  dialogs (fst (validate_and_update_freq st)) = dialogs st.
Proof.
  destruct (IntVar_get_outcome (freq_var st)) as [[z Hz]|Hz].
  - rewrite (validate_freq_integer st z Hz). cbn [fst].
    now rewrite send_command_dialogs.
  - now rewrite (validate_freq_not_a_number st Hz).
Qed.

Lemma validate_amp_never_shows_dialog (st : state) :
  dialogs (fst (validate_and_update_amp st)) = dialogs st.
Proof.
  destruct (IntVar_get_outcome (amp_var st)) as [[z Hz]|Hz].
  - rewrite (validate_amp_integer st z Hz). cbn [fst].
    now rewrite send_command_dialogs.
  - now rewrite (validate_amp_not_a_number st Hz).
Qed.

End AnyTcl.

(** C6, clamping part, on the inputs of the specification: 60000 becomes
    50000 and -5 becomes 1; for the amplitude, 300 becomes 255 and -5
    becomes 0. *)
Lemma validate_clamps_examples :
  freq_var (fst (validate_and_update_freq (typed "60000" "200")))
    = TclInt 50000 /\
  freq_var (fst (validate_and_update_freq (typed "-5" "200"))) = TclInt 1 /\
  amp_var (fst (validate_and_update_amp (typed "1000" "300"))) = TclInt 255 /\
  amp_var (fst (validate_and_update_amp (typed "1000" "-5"))) = TclInt 0.
Proof. repeat split; vm_compute; reflexivity. Qed.

(** C6, non-numeric part, on the input of the specification: with "abc" in
    the entry the method ends with [TclError]; the variable still holds
    "abc", not the default, and no dialog is shown. The same holds for the
    amplitude entry. *)
Lemma validate_abc_not_reset :
  validate_and_update_freq (typed "abc" "200")
    = (typed "abc" "200", Some TclError) /\
  freq_var (fst (validate_and_update_freq (typed "abc" "200")))
    <> TclInt 1000 /\
  dialogs (fst (validate_and_update_freq (typed "abc" "200"))) = [] /\
  validate_and_update_amp (typed "1000" "abc")
    = (typed "1000" "abc", Some TclError) /\
  amp_var (fst (validate_and_update_amp (typed "1000" "abc")))
    <> TclInt 200 /\
  dialogs (fst (validate_and_update_amp (typed "1000" "abc"))) = [].
Proof.
  repeat split; try (vm_compute; reflexivity); vm_compute; discriminate.
Qed.

End EntryProps.

(** ** Connection life cycle *)

Module ConnProps.

Import Conn.

Lemma consistent_initial (port : string) : consistent (initial port).
Proof. split; cbn; discriminate. Qed.

Lemma consistent_toggle_run (st : state) :
  consistent st -> consistent (toggle_run st).
Proof. intros H. exact H. Qed.

Lemma consistent_connect (opens : bool) (st : state) :
  consistent st -> consistent (connect opens st).
Proof.
  intros Hc. unfold connect.
  case_bool_decide; [exact Hc|].
  destruct opens; [|exact Hc].
  split; cbn; [auto | discriminate].
Qed.

Lemma consistent_disconnect (st : state) :
  consistent st -> connected st = true -> consistent (disconnect st).
Proof.
  intros [Hc _] Hconn. destruct (Hc Hconn) as [Hd _].
  unfold disconnect.
  split; destruct (running st); cbn; try discriminate;
    rewrite Hd; discriminate.
Qed.

Lemma consistent_toggle_demo_mode (st : state) :
  consistent st -> demo_btn st <> DISABLED ->
  consistent (toggle_demo_mode st).
Proof.
  intros [Hc _] Hbtn.
  assert (Hconn : connected st = false).
  { destruct (connected st) eqn:E; [|reflexivity].
    destruct (Hc eq_refl) as [_ Hb]. contradiction. }
  unfold toggle_demo_mode.
  destruct (negb (demo_mode st)); split; cbn;
    rewrite ?Hconn; try discriminate; auto.
Qed.

Lemma consistent_step (st st' : state) :
  consistent st -> step st st' -> consistent st'.
Proof.
  intros Hc Hstep. inversion Hstep; subst; clear Hstep.
  - unfold toggle_connection. destruct (connected st) eqn:E.
    + now apply consistent_disconnect.
    + now apply consistent_connect.
  - now apply consistent_toggle_demo_mode.
  - now apply consistent_toggle_run.
  - exact Hc.
Qed.

Lemma reachable_consistent (port : string) (st : state) :
  reachable port st -> consistent st.
Proof.
  induction 1 as [|st st' _ IH Hstep].
  - apply consistent_initial.
  - eapply consistent_step; eassumption.
Qed.

(** C9: in every state reached from the initial state through the
    buttons, each firing only while enabled, [connected] and [demo_mode]
    are not both true. *)
Theorem connected_excludes_demo (port : string) (st : state) :
  reachable port st ->
  ~ (connected st = true /\ demo_mode st = true).
Proof.
  intros Hr [Hconn Hdemo].
  destruct (reachable_consistent port st Hr) as [Hc _].
  destruct (Hc Hconn) as [Hd _]. congruence.
Qed.

Lemma connected_excludes_demo_witness :
  ~ (connected after_connect = true /\ demo_mode after_connect = true).
Proof.
  apply (connected_excludes_demo "COM3").
  apply (reach_step "COM3" (initial "COM3")).
  - apply reach_initial.
  - apply step_connect_btn. discriminate.
Defined.

End ConnProps.

(** ** Demo synthesizer *)

Module SynthProps.

Import Synth.

Local Open Scope R_scope.

Lemma samples_minus_one : INR (samples - 1) = 999.
Proof. rewrite INR_IZR_INZ. f_equal. Qed.

Lemma tick_range (i : nat) : (i < samples)%nat -> 0 <= tick i <= 100.
Proof.
  intros Hi. unfold tick.
  assert (0 <= INR i) by apply pos_INR.
  assert (INR i <= 999).
  { rewrite <- samples_minus_one. apply le_INR. lia. }
  lra.
Qed.

Lemma linspace_point (i : nat) :
  0 + INR i * ((100 - 0) / INR (samples - 1)) = tick i.
Proof. rewrite samples_minus_one. unfold tick. lra. Qed.

Lemma time_lookup (freq amp : Z) (wave : string) (noise : nat -> R) (i : nat) :
  (i < samples)%nat ->
  time (generate_demo_data freq amp wave noise) !! i = Some (tick i).
Proof.
  intros Hi. unfold generate_demo_data, linspace. cbn [time].
  rewrite list_lookup_fmap, lookup_seq_lt by exact Hi.
  cbn [fmap option_fmap option_map Nat.add].
  now rewrite linspace_point.
Qed.

Lemma voltage_lookup (freq amp : Z) (wave : string) (noise : nat -> R)
    (i : nat) :
  (i < samples)%nat ->
  voltage (generate_demo_data freq amp wave noise) !! i =
    Some (1.65 + IZR amp / 255 * 1.5 * signal_at wave (IZR freq) (tick i / 1000)
          + noise i).
Proof.
  intros Hi. unfold generate_demo_data, linspace. cbn [voltage].
  rewrite lookup_zip_with, !list_lookup_fmap, lookup_seq_lt by exact Hi.
  cbn [fmap option_fmap option_map mbind option_bind Nat.add].
  now rewrite linspace_point.
Qed.

Lemma time_length (freq amp : Z) (wave : string) (noise : nat -> R) :
  length (time (generate_demo_data freq amp wave noise)) = samples.
Proof.
  unfold generate_demo_data, linspace. cbn [time].
  now rewrite length_fmap, length_seq.
Qed.

Lemma voltage_length (freq amp : Z) (wave : string) (noise : nat -> R) :
  length (voltage (generate_demo_data freq amp wave noise)) = samples.
Proof.
  unfold generate_demo_data, linspace. cbn [voltage].
  rewrite length_zip_with, !length_fmap, length_seq. lia.
Qed.

(** *** The code's branches against the specification's formulas *)

Lemma np_sign_sign (x : R) : np_sign x = sign x.
Proof.
  unfold np_sign, sign.
  destruct (total_order_T x 0) as [[H|H]|H];
    destruct (Rlt_dec 0 x), (Rlt_dec x 0); try reflexivity; lra.
Qed.

Lemma mod1_frac (x : R) : mod1 x = frac x.
Proof. reflexivity. Qed.

Lemma signal_at_spec (w : waveform) (f t : R) :
  signal_at (wave_name w) f t = spec_signal w f t.
Proof.
  unfold signal_at.
  destruct w; cbn [wave_name spec_signal];
    repeat (case_bool_decide; try discriminate);
    try congruence; rewrite ?np_sign_sign, ?mod1_frac; reflexivity.
Qed.

(** *** Range of the signal *)

Lemma mod1_range (x : R) : 0 <= mod1 x < 1.
Proof.
  destruct (base_fp x) as [H0 H1]. unfold mod1, frac_part in *. lra.
Qed.

Lemma np_sign_range (x : R) : -1 <= np_sign x <= 1.
Proof.
  unfold np_sign. destruct (total_order_T x 0) as [[H|H]|H]; lra.
Qed.

Lemma signal_at_range (wave : string) (f t : R) :
  -1 <= signal_at wave f t <= 1.
Proof.
  unfold signal_at. repeat case_bool_decide.
  - apply SIN_bound.
  - apply np_sign_range.
  - pose proof (mod1_range (f * t)) as Hm.
    pose proof (Rabs_pos (2 * mod1 (f * t) - 1)) as Hp.
    assert (Rabs (2 * mod1 (f * t) - 1) <= 1) by (apply Rabs_le; lra).
    lra.
  - pose proof (mod1_range (f * t)) as Hm. lra.
  - lra.
Qed.

Lemma amp_fraction_range (a : Z) :
  (0 <= a <= 255)%Z -> 0 <= IZR a / 255 <= 1.
Proof.
  intros [H0 H1]. apply IZR_le in H0, H1. lra.
Qed.

(** The demo path publishes sequences of equal length. *)
Lemma generate_demo_data_same_length (freq amp : Z) (wave : string)
    (noise : nat -> R) :
  same_length (generate_demo_data freq amp wave noise).
Proof.
  unfold same_length. now rewrite time_length, voltage_length.
Qed.

(** C7: for each of the four waveform kinds and every amplitude fraction
    in [0, 1], if every noise sample is at most [noise_bound] in
    magnitude, then every synthesized voltage lies between
    1.65 - 1.5 * amp_frac - noise_bound and
    1.65 + 1.5 * amp_frac + noise_bound. *)
Theorem synthesized_voltage_bounds (w : waveform) (f a : Z)
    (noise : nat -> R) (noise_bound : R) :
  (0 <= a <= 255)%Z ->
  (forall i : nat, (i < 1000)%nat -> Rabs (noise i) <= noise_bound) ->
  let amp_frac := IZR a / 255 in
  0 <= amp_frac <= 1 /\
  Forall (fun v =>
            1.65 - 1.5 * amp_frac - noise_bound <= v
            <= 1.65 + 1.5 * amp_frac + noise_bound)
         (voltage (generate_demo_data f a (wave_name w) noise)).
Proof.
  intros Ha Hn amp_frac. subst amp_frac.
  pose proof (amp_fraction_range a Ha) as Hamp.
  split; [exact Hamp|].
  apply Forall_lookup. intros i v Hv.
  assert (Hi : (i < samples)%nat).
  { apply lookup_lt_Some in Hv. now rewrite voltage_length in Hv. }
  rewrite voltage_lookup in Hv by exact Hi. injection Hv as <-.
  pose proof (signal_at_range (wave_name w) (IZR f) (tick i / 1000)) as Hs.
  set (s := signal_at (wave_name w) (IZR f) (tick i / 1000)) in *.
  set (k := IZR a / 255) in *.
  specialize (Hn i Hi).
  assert (- noise_bound <= noise i <= noise_bound).
  { split.
    - pose proof (Rle_abs (- noise i)) as H1. rewrite Rabs_Ropp in H1. lra.
    - pose proof (Rle_abs (noise i)) as H1. lra. }
  assert (- k <= k * s <= k) by nra.
  lra.
Qed.

Lemma synthesized_voltage_bounds_witness :
  Forall (fun v =>
            1.65 - 1.5 * (IZR 200 / 255) - 0 <= v
            <= 1.65 + 1.5 * (IZR 200 / 255) + 0)
         (voltage (generate_demo_data 1000 200 "SINE" (fun _ => 0))).
Proof.
  apply (synthesized_voltage_bounds Sine 1000 200 (fun _ => 0) 0).
  - lia.
  - intros i _. rewrite Rabs_R0. lra.
Defined.

End SynthProps.

(** ** Serial capture reader *)

Module CaptureProps.

Import Decimal Capture.

Local Open Scope Q_scope.

Section AnyFloat.

Context `{PyFloat}.

(** Timeout with nothing more to read: the loop ends with what it has. *)
Lemma read_loop_timeout (ls : loop_state) : read_loop [] ls = Some ls.
Proof. reflexivity. Qed.

(** The start sentinel empties both lists and turns capturing on. *)
Lemma read_loop_start (text : string) (rest : list serial_event)
    (ls : loop_state) :
  strip text = "SCOPE_START"%string ->
  read_loop (Received text :: rest) ls = read_loop rest (mkLoop [] [] true).
Proof.
  intros E. cbn [read_loop]. rewrite E.
  now rewrite bool_decide_eq_true_2.
Qed.

(** The end sentinel stops the loop; later lines are not read. *)
Lemma read_loop_end (text : string) (rest : list serial_event)
    (ls : loop_state) :
  strip text = "SCOPE_END"%string ->
  read_loop (Received text :: rest) ls = Some ls.
Proof.
  intros E. cbn [read_loop]. rewrite E.
  rewrite bool_decide_eq_false_2 by discriminate.
  now rewrite bool_decide_eq_true_2.
Qed.

(** Before the start sentinel every other line is ignored. *)
Lemma read_loop_not_capturing (text : string) (rest : list serial_event)
    (td vd : list Q) :
  strip text <> "SCOPE_START"%string ->
  strip text <> "SCOPE_END"%string ->
  read_loop (Received text :: rest) (mkLoop td vd false)
  = read_loop rest (mkLoop td vd false).
Proof.
  intros E1 E2. cbn [read_loop].
  now rewrite !bool_decide_eq_false_2 by assumption.
Qed.

(** A line without a comma is skipped and the loop goes on. *)
Lemma read_loop_no_comma (text : string) (rest : list serial_event)
    (ls : loop_state) :
  strip text <> "SCOPE_START"%string ->
  strip text <> "SCOPE_END"%string ->
  contains_comma (strip text) = false ->
  read_loop (Received text :: rest) ls = read_loop rest ls.
Proof.
  intros E1 E2 Hc. cbn [read_loop].
  rewrite !bool_decide_eq_false_2 by assumption.
  rewrite Hc. now rewrite andb_false_r.
Qed.

(** While capturing, a line with a comma goes through the inner [try]. *)
Lemma read_loop_comma (text : string) (rest : list serial_event)
    (td vd : list Q) :
  strip text <> "SCOPE_START"%string ->
  strip text <> "SCOPE_END"%string ->
  contains_comma (strip text) = true ->
  read_loop (Received text :: rest) (mkLoop td vd true)
  = read_loop rest (append_sample (strip text) (mkLoop td vd true)).
Proof.
  intros E1 E2 Hc. cbn [read_loop].
  rewrite !bool_decide_eq_false_2 by assumption.
  now rewrite Hc.
Qed.

(** Two fields that both parse: one pair is appended, the time divided
    by 1000. *)
Lemma append_sample_pair (line t v : string) (ft fv : Q) (ls : loop_state) :
  split_comma line = [t; v] ->
  py_float t = Some ft -> py_float v = Some fv ->
  append_sample line ls
  = mkLoop (time_data ls ++ [ft / 1000]) (voltage_data ls ++ [fv])
           (capturing ls).
Proof.
  intros Hs Ht Hv. unfold append_sample. now rewrite Hs, Ht, Hv.
Qed.

(** A time field that does not parse: nothing is appended. *)
Lemma append_sample_bad_time (line t v : string) (ls : loop_state) :
  split_comma line = [t; v] -> py_float t = None ->
  append_sample line ls = ls.
Proof.
  intros Hs Ht. unfold append_sample. now rewrite Hs, Ht.
Qed.

(** A time field that parses before a voltage field that does not: the
    time is appended alone. *)
Lemma append_sample_bad_voltage (line t v : string) (ft : Q)
    (ls : loop_state) :
  split_comma line = [t; v] ->
  py_float t = Some ft -> py_float v = None ->
  append_sample line ls
  = mkLoop (time_data ls ++ [ft / 1000]) (voltage_data ls) (capturing ls).
Proof.
  intros Hs Ht Hv. unfold append_sample. now rewrite Hs, Ht, Hv.
Qed.

(** What the loop does keep: the voltages never outnumber the times. *)
Lemma append_sample_lengths (line : string) (ls : loop_state) :
  (length (voltage_data ls) <= length (time_data ls))%nat ->
  (length (voltage_data (append_sample line ls))
   <= length (time_data (append_sample line ls)))%nat.
Proof.
  intros Hl. unfold append_sample.
  repeat case_match; cbn [time_data voltage_data];
    rewrite ?length_app; cbn [length]; lia.
Qed.

Lemma read_loop_lengths (input : list serial_event) (ls ls' : loop_state) :
  (length (voltage_data ls) <= length (time_data ls))%nat ->
  read_loop input ls = Some ls' ->
  (length (voltage_data ls') <= length (time_data ls'))%nat.
Proof.
  revert ls. induction input as [|ev input IH]; intros ls Hl Hr.
  - cbn in Hr. now injection Hr as <-.
  - destruct ev as [text|]; [|discriminate].
    cbn [read_loop] in Hr.
    repeat case_match.
    + eapply IH; [|exact Hr]. cbn. lia.
    + now injection Hr as <-.
    + eapply IH; [|exact Hr]. now apply append_sample_lengths.
    + eapply IH; eassumption.
Qed.

(** Apart from lines with a readable time and an unreadable voltage, the
    loop keeps the two lists at the same length. *)
Lemma append_sample_same_length (line : string) (ls : loop_state) :
  whole_or_rejected line ->
  length (time_data ls) = length (voltage_data ls) ->
  length (time_data (append_sample line ls))
  = length (voltage_data (append_sample line ls)).
Proof.
  intros Hw Hl. unfold append_sample.
  destruct (split_comma line) as [|t [|v [|x rest]]] eqn:Hs; try exact Hl.
  destruct (py_float t) as [ft|] eqn:Ht; [|exact Hl].
  destruct (Hw t v ft Hs Ht) as [fv Hv]. rewrite Hv.
  cbn [time_data voltage_data]. rewrite !length_app. cbn [length]. lia.
Qed.

Lemma read_loop_same_length (input : list serial_event)
    (ls ls' : loop_state) :
  Forall event_whole_or_rejected input ->
  length (time_data ls) = length (voltage_data ls) ->
  read_loop input ls = Some ls' ->
  length (time_data ls') = length (voltage_data ls').
Proof.
  intros Hall. revert ls.
  induction Hall as [|ev input Hev _ IH]; intros ls Hl Hr.
  - cbn in Hr. now injection Hr as <-.
  - destruct ev as [text|]; [|discriminate].
    cbn [read_loop] in Hr. cbn [event_whole_or_rejected] in Hev.
    repeat case_match.
    + eapply IH; [|exact Hr]. reflexivity.
    + now injection Hr as <-.
    + eapply IH; [|exact Hr]. now apply append_sample_same_length.
    + eapply IH; eassumption.
Qed.

Lemma capture_thread_same_length (input : list serial_event)
    (scope_data : ScopeData Q) :
  Forall event_whole_or_rejected input ->
  same_length scope_data ->
  same_length (capture_thread input scope_data).
Proof.
  intros Hall Hs. unfold capture_thread.
  destruct (read_loop input (mkLoop [] [] false)) as [ls|] eqn:Hr; [|exact Hs].
  unfold same_length. cbn [time voltage].
  eapply read_loop_same_length; [exact Hall| |exact Hr]. reflexivity.
Qed.

End AnyFloat.

(** A capture whose comma lines all parse in both fields publishes
    sequences of equal length. *)
Lemma capture_well_formed_example :
  same_length
    (capture_thread
       [Received "SCOPE_START"; Received "0,1.5"; Received "10,2.5";
        Received "SCOPE_END"]%string (mkScope [] [])).
Proof. reflexivity. Qed.

(** C2 at its failing input: after the capture the buffer holds one time
    and no voltage. *)
Lemma capture_partial_line_unequal :
  capture_thread partial_line_capture (mkScope [] [])
    = mkScope [1 / 1000] [] /\
  length (time (capture_thread partial_line_capture (mkScope [] []))) = 1%nat /\
  length (voltage (capture_thread partial_line_capture (mkScope [] [])))
    = 0%nat /\
  ~ same_length (capture_thread partial_line_capture (mkScope [] [])).
Proof.
  repeat split; try reflexivity. vm_compute. discriminate.
Qed.

(** C5 at its failing input: the line "1,abc" is not skipped. Its time
    stays in the buffer, so the later sample (2 ms, 3.0 V) is published
    with the voltage paired to the wrong time; without that line the
    capture gives the single sample. *)
Lemma capture_bad_voltage_not_skipped :
  capture_thread shifted_capture (mkScope [] [])
    = mkScope [1 / 1000; 2 / 1000] [3] /\
  capture_thread
    [Received "SCOPE_START"; Received "2,3.0"; Received "SCOPE_END"]%string
    (mkScope [] [])
    = mkScope [2 / 1000] [3] /\
  capture_thread shifted_capture (mkScope [] [])
  <> capture_thread
       [Received "SCOPE_START"; Received "2,3.0"; Received "SCOPE_END"]%string
       (mkScope [] []).
Proof.
  repeat split; try reflexivity. vm_compute. discriminate.
Qed.

(** The parts of C5 that the code does: a line without a comma and a line
    whose time does not parse are skipped; lines outside the sentinels are
    ignored; on timeout the partial data is published. *)
Lemma capture_examples :
  capture_thread
    [Received "5,5"; Received "SCOPE_START"; Received "0,1.5";
     Received "no comma"; Received "x,2"; Received "1,2,3";
     Received "10,2.5"; Received "SCOPE_END"; Received "20,9"]%string
    (mkScope [] [])
    = mkScope [0 / 1000; 10 / 1000] [3 # 2; 5 # 2] /\
  capture_thread
    [Received "SCOPE_START"; Received "0,1.5"; Received "10,2.5"]%string
    (mkScope [] [])
    = mkScope [0 / 1000; 10 / 1000] [3 # 2; 5 # 2].
Proof. split; reflexivity. Qed.

End CaptureProps.

(** ** Serial capture reader: further properties *)

Module CaptureMore.

Import Decimal Capture CaptureShape.

Local Open Scope Q_scope.

Section AnyFloat.

Context `{PyFloat}.

Lemma split_comma_no_comma (s : string) :
  contains_comma s = false -> split_comma s = [s].
Proof.
  induction s as [|c s IH]; intros Hc; [reflexivity|].
  cbn [contains_comma split_comma] in *.
  apply orb_false_iff in Hc as [Hc1 Hc2].
  rewrite Hc1, (IH Hc2). reflexivity.
Qed.

Lemma two_fields_have_comma (s a b : string) :
  split_comma s = [a; b] -> contains_comma s = true.
Proof.
  intros Hs. destruct (contains_comma s) eqn:E; [reflexivity|].
  rewrite (split_comma_no_comma s E) in Hs. discriminate.
Qed.

(** One step of the loop on a line that is not the end sentinel: the loop
    goes on, in some state. *)
Lemma read_loop_passes (ev : serial_event) (rest : list serial_event)
    (ls : loop_state) :
  passes ev -> exists ls', read_loop (ev :: rest) ls = read_loop rest ls'.
Proof.
  destruct ev as [text|]; [|intros []]. cbn [passes]. intros Hne.
  cbn [read_loop]. repeat case_bool_decide; try contradiction;
    repeat case_match; eauto.
Qed.

(** X1: whatever arrives on the serial line, the published buffer never
    holds more voltages than times. *)
Theorem capture_voltages_never_outnumber_times (input : list serial_event)
    (old : ScopeData Q) :
  (length (voltage old) <= length (time old))%nat ->
  (length (voltage (capture_thread input old))
   <= length (time (capture_thread input old)))%nat.
Proof.
  intros Hold. unfold capture_thread.
  destruct (read_loop input (mkLoop [] [] false)) as [ls|] eqn:Hr;
    [|exact Hold].
  cbn [time voltage].
  eapply CaptureProps.read_loop_lengths; [|exact Hr]. cbn. lia.
Qed.

Lemma read_loop_stops_at_end (pre rest : list serial_event) (text : string)
    (ls : loop_state) :
  strip text = "SCOPE_END"%string ->
  read_loop (pre ++ Received text :: rest) ls
  = read_loop (pre ++ [Received text]) ls.
Proof.
  intros E. revert ls. induction pre as [|ev pre IH]; intros ls.
  - cbn [app]. now rewrite !CaptureProps.read_loop_end.
  - cbn [app]. destruct ev as [t|]; [|reflexivity].
    cbn [read_loop]. repeat case_match; auto.
Qed.

(** X2: nothing that arrives after an end sentinel has any effect on the
    published buffer, be it samples, a new start sentinel or a read
    failure. *)
Theorem capture_ignores_input_after_end (pre rest : list serial_event)
    (text : string) (old : ScopeData Q) :
  strip text = "SCOPE_END"%string ->
  capture_thread (pre ++ Received text :: rest) old
  = capture_thread (pre ++ [Received text]) old.
Proof.
  intros E. unfold capture_thread.
  now rewrite (read_loop_stops_at_end pre rest text _ E).
Qed.

Lemma read_loop_restart (pre rest : list serial_event) (text : string)
    (ls : loop_state) :
  Forall passes pre ->
  strip text = "SCOPE_START"%string ->
  read_loop (pre ++ Received text :: rest) ls
  = read_loop rest (mkLoop [] [] true).
Proof.
  intros Hpre E. revert ls.
  induction Hpre as [|ev pre Hev _ IH]; intros ls.
  - cbn [app]. now apply CaptureProps.read_loop_start.
  - cbn [app].
    destruct (read_loop_passes ev (pre ++ Received text :: rest) ls Hev)
      as [ls' ->].
    apply IH.
Qed.

(** X3: a start sentinel discards everything read before it: the capture
    is the one that would have begun with the lines after that sentinel. *)
Theorem capture_restarts_at_start (pre rest : list serial_event)
    (text : string) (old : ScopeData Q) :
  Forall passes pre ->
  strip text = "SCOPE_START"%string ->
  capture_thread (pre ++ Received text :: rest) old
  = capture_thread (Received text :: rest) old.
Proof.
  intros Hpre E. unfold capture_thread.
  rewrite (read_loop_restart pre rest text _ Hpre E).
  now rewrite (CaptureProps.read_loop_start text rest _ E).
Qed.

Lemma read_loop_without_start (input : list serial_event) :
  Forall not_start input ->
  read_loop input (mkLoop [] [] false) = Some (mkLoop [] [] false).
Proof.
  induction 1 as [|ev input Hev _ IH]; [reflexivity|].
  destruct ev as [text|]; [|destruct Hev]. cbn [not_start] in Hev.
  cbn [read_loop]. rewrite bool_decide_eq_false_2 by exact Hev.
  case_bool_decide; [reflexivity|]. cbn [capturing andb]. exact IH.
Qed.

(** X4: when the lines read before the deadline contain no start
    sentinel, the capture publishes an empty buffer: the samples shown
    before are gone from [scope_data]. *)
Theorem capture_without_start_publishes_empty (input : list serial_event)
    (old : ScopeData Q) :
  Forall not_start input ->
  capture_thread input old = mkScope [] [].
Proof.
  intros Hin. unfold capture_thread.
  now rewrite (read_loop_without_start input Hin).
Qed.

Lemma read_loop_failure (pre rest : list serial_event) (ls : loop_state) :
  Forall passes pre ->
  read_loop (pre ++ Failed :: rest) ls = None.
Proof.
  intros Hpre. revert ls.
  induction Hpre as [|ev pre Hev _ IH]; intros ls; [reflexivity|].
  cbn [app].
  destruct (read_loop_passes ev (pre ++ Failed :: rest) ls Hev) as [ls' ->].
  apply IH.
Qed.

(** X5: a read or decode failure before the end sentinel aborts the
    capture: [scope_data] keeps the buffer it had, whatever was
    accumulated. *)
Theorem capture_failure_keeps_buffer (pre rest : list serial_event)
    (old : ScopeData Q) :
  Forall passes pre ->
  capture_thread (pre ++ Failed :: rest) old = old.
Proof.
  intros Hpre. unfold capture_thread.
  now rewrite (read_loop_failure pre rest _ Hpre).
Qed.

Lemma read_loop_sample_line (text : string) (sample : Q * Q)
    (rest : list serial_event) (td vd : list Q) :
  sample_line text sample ->
  read_loop (Received text :: rest) (mkLoop td vd true)
  = read_loop rest (mkLoop (td ++ [fst sample / 1000]) (vd ++ [snd sample])
                           true).
Proof.
  intros (E1 & E2 & a & b & Hs & Ha & Hb).
  rewrite CaptureProps.read_loop_comma;
    [|assumption|assumption|now apply (two_fields_have_comma _ a b)].
  now rewrite (CaptureProps.append_sample_pair _ a b _ _ _ Hs Ha Hb).
Qed.

Lemma read_loop_samples (lines : list string) (samples : list (Q * Q))
    (rest : list serial_event) (td vd : list Q) :
  Forall2 sample_line lines samples ->
  read_loop ((Received <$> lines) ++ rest) (mkLoop td vd true)
  = read_loop rest
      (mkLoop (td ++ ((fun s => fst s / 1000) <$> samples))
              (vd ++ (snd <$> samples)) true).
Proof.
  intros Hall. revert td vd.
  induction Hall as [|text sample lines samples Hl _ IH]; intros td vd.
  - cbn. now rewrite !app_nil_r.
  - cbn [fmap list_fmap app].
    rewrite (read_loop_sample_line text sample _ td vd Hl).
    rewrite IH. now rewrite <- !app_assoc.
Qed.

(** X6: a complete frame (start sentinel, sample lines, end sentinel) is
    published sample for sample in arrival order, each time divided by
    1000 and each voltage as sent. *)
Theorem capture_complete_frame (lines : list string) (samples : list (Q * Q))
    (start stop : string) (rest : list serial_event) (old : ScopeData Q) :
  strip start = "SCOPE_START"%string ->
  strip stop = "SCOPE_END"%string ->
  Forall2 sample_line lines samples ->
  capture_thread
    (Received start :: (Received <$> lines) ++ Received stop :: rest) old
  = mkScope ((fun s => fst s / 1000) <$> samples) (snd <$> samples).
Proof.
  intros Hstart Hstop Hall. unfold capture_thread.
  rewrite (CaptureProps.read_loop_start start _ _ Hstart).
  rewrite (read_loop_samples lines samples _ [] [] Hall).
  now rewrite (CaptureProps.read_loop_end stop rest _ Hstop).
Qed.

End AnyFloat.

Lemma capture_ignores_input_after_end_witness :
  capture_thread
    ([Received "SCOPE_START"; Received "0,1"]%string
     ++ Received "SCOPE_END"%string :: [Received "5,5"%string; Failed])
    (mkScope [] [])
  = capture_thread
      ([Received "SCOPE_START"; Received "0,1"]%string
       ++ [Received "SCOPE_END"%string])
      (mkScope [] []).
Proof.
  apply capture_ignores_input_after_end. reflexivity.
Defined.

Lemma capture_restarts_at_start_witness :
  capture_thread
    ([Received "SCOPE_START"; Received "0,9"; Received "noise"]%string
     ++ Received "SCOPE_START"%string
        :: [Received "1,2"; Received "SCOPE_END"]%string)
    (mkScope [] [])
  = capture_thread
      (Received "SCOPE_START"%string
       :: [Received "1,2"; Received "SCOPE_END"]%string)
      (mkScope [] []).
Proof.
  apply capture_restarts_at_start; [|reflexivity].
  repeat constructor; cbn; discriminate.
Defined.

Lemma capture_voltages_never_outnumber_times_witness :
  (length (voltage (capture_thread partial_line_capture (mkScope [] [])))
   <= length (time (capture_thread partial_line_capture (mkScope [] []))))%nat.
Proof.
  apply capture_voltages_never_outnumber_times. cbn. lia.
Defined.

Lemma capture_without_start_publishes_empty_witness :
  capture_thread [Received "0,1"; Received "hello"; Received "SCOPE_END"]%string
                 (mkScope [0; 1] [2; 3])
  = mkScope [] [].
Proof.
  apply capture_without_start_publishes_empty.
  repeat constructor; cbn; discriminate.
Defined.

Lemma capture_failure_keeps_buffer_witness :
  capture_thread
    ([Received "SCOPE_START"; Received "0,1"]%string ++ Failed :: [])
    (mkScope [0; 1] [2; 3])
  = mkScope [0; 1] [2; 3].
Proof.
  apply capture_failure_keeps_buffer.
  repeat constructor; cbn; discriminate.
Defined.

Lemma capture_complete_frame_witness :
  capture_thread
    (Received "SCOPE_START"%string
     :: (Received <$> ["0,1.5"; "10,2.5"]%string)
        ++ Received "SCOPE_END"%string :: [])
    (mkScope [] [])
  = mkScope ((fun s => fst s / 1000) <$> [(0, 3 # 2); (10, 5 # 2)])
            (snd <$> [(0, 3 # 2); (10, 5 # 2)]).
Proof.
  apply capture_complete_frame; try reflexivity.
  repeat constructor; cbn; try discriminate.
  all: eexists _, _; repeat split; reflexivity.
Defined.

End CaptureMore.

(** ** Measurement engine: further properties *)

Module DisplayMore.

Import Format Display DisplayShape.

Local Open Scope Q_scope.

Lemma show_measurements_inv (m : measurements)
    (labels labels' : gmap string string) :
  show_measurements m labels = Ok labels' ->
  has_labels labels /\ labels' = written m labels.
Proof.
  intros Hs.
  assert (Hl : has_labels labels).
  { unfold show_measurements, label_config in Hs.
    destruct (labels !! "vmax"%string) eqn:E1;
      cbn [mbind result_bind] in Hs; [|discriminate].
    rewrite lookup_insert_ne in Hs by discriminate.
    destruct (labels !! "vmin"%string) eqn:E2;
      cbn [mbind result_bind] in Hs; [|discriminate].
    rewrite !lookup_insert_ne in Hs by discriminate.
    destruct (labels !! "vpp"%string) eqn:E3;
      cbn [mbind result_bind] in Hs; [|discriminate].
    rewrite !lookup_insert_ne in Hs by discriminate.
    destruct (labels !! "vavg"%string) eqn:E4;
      cbn [mbind result_bind] in Hs; [|discriminate].
    rewrite !lookup_insert_ne in Hs by discriminate.
    destruct (labels !! "freq"%string) eqn:E5; [|discriminate].
    unfold has_labels, measurement_keys. repeat constructor; eauto. }
  split; [exact Hl|].
  rewrite (DisplayProps.show_measurements_ok m labels Hl) in Hs.
  now injection Hs as <-.
Qed.

(** What a successful [update_display] on a buffer with data did. *)
Lemma update_display_inv (st st' : state) :
  time (scope_data st) <> [] ->
  update_display st = Ok st' ->
  exists m,
    measure (time (scope_data st)) (voltage (scope_data st)) = Ok m /\
    has_labels (meas_labels st) /\
    st' = mkState (scope_data st) (written m (meas_labels st)).
Proof.
  intros Ht Hu. unfold update_display in Hu.
  destruct (time (scope_data st)) as [|t0 ts] eqn:Et; [congruence|].
  destruct (measure (t0 :: ts) (voltage (scope_data st))) as [m|e] eqn:Hm;
    cbn [mbind result_bind] in Hu; [|discriminate].
  destruct (show_measurements m (meas_labels st)) as [l|e] eqn:Hs;
    cbn [mbind result_bind] in Hu; [|discriminate].
  injection Hu as <-.
  destruct (show_measurements_inv _ _ _ Hs) as [Hl ->].
  exists m. auto.
Qed.

Lemma written_present (m : measurements) (labels : gmap string string) :
  has_labels labels -> has_labels (written m labels).
Proof.
  unfold has_labels. rewrite !Forall_forall. intros Hl k Hk.
  unfold written. repeat (apply lookup_insert_is_Some'; right). now apply Hl.
Qed.

Lemma written_twice (m : measurements) (labels : gmap string string) :
  written m (written m labels) = written m labels.
Proof.
  apply map_eq. intros k. unfold written.
  destruct (decide (k = "freq"%string)) as [->|?]; [by simplify_map_eq|].
  destruct (decide (k = "vavg"%string)) as [->|?]; [by simplify_map_eq|].
  destruct (decide (k = "vpp"%string)) as [->|?]; [by simplify_map_eq|].
  destruct (decide (k = "vmin"%string)) as [->|?]; [by simplify_map_eq|].
  destruct (decide (k = "vmax"%string)) as [->|?]; by simplify_map_eq.
Qed.

(** X7: refreshing the display a second time changes nothing: when
    [update_display] returns normally, running it again on the result
    returns that same state. *)
Theorem update_display_idempotent (st st' : state) :
  update_display st = Ok st' -> update_display st' = Ok st'.
Proof.
  intros Hu.
  destruct (time (scope_data st)) as [|t0 ts] eqn:Et.
  - unfold update_display in Hu. rewrite Et in Hu. injection Hu as <-.
    unfold update_display. now rewrite Et.
  - assert (Ht : time (scope_data st) <> []) by (rewrite Et; discriminate).
    destruct (update_display_inv st st' Ht Hu) as (m & Hm & Hl & ->).
    unfold update_display. cbn [scope_data meas_labels]. rewrite Et.
    rewrite <- Et, Hm. cbn [mbind result_bind].
    rewrite (DisplayProps.show_measurements_ok m _ (written_present m _ Hl)).
    cbn [mbind result_bind]. fold (written m (written m (meas_labels st))).
    now rewrite written_twice.
Qed.

Lemma update_display_idempotent_witness :
  update_display example_shown = Ok example_shown.
Proof.
  apply (update_display_idempotent example_buffer example_shown).
  vm_compute. reflexivity.
Defined.

(** X8: [update_display] never touches the sample buffer, never adds or
    removes a label, and changes no label other than the five
    measurements. *)
Theorem update_display_frame (st st' : state) :
  update_display st = Ok st' ->
  scope_data st' = scope_data st /\
  (forall k, is_Some (meas_labels st' !! k) <-> is_Some (meas_labels st !! k))
  /\
  (forall k, ~ In k measurement_keys ->
             meas_labels st' !! k = meas_labels st !! k).
Proof.
  intros Hu.
  destruct (time (scope_data st)) as [|t0 ts] eqn:Et.
  - unfold update_display in Hu. rewrite Et in Hu. injection Hu as <-.
    repeat split; auto.
  - assert (Ht : time (scope_data st) <> []) by (rewrite Et; discriminate).
    destruct (update_display_inv st st' Ht Hu) as (m & Hm & Hl & ->).
    cbn [scope_data meas_labels]. split; [reflexivity|]. split.
    + intros k.
      assert (Hin : forall j, In j measurement_keys ->
                              is_Some (meas_labels st !! j)).
      { apply (proj1 (List.Forall_forall _ _)). exact Hl. }
      unfold written. rewrite !lookup_insert_is_Some'.
      split; [|tauto].
      intros [<-|[<-|[<-|[<-|[<-|Hk]]]]]; try exact Hk;
        apply Hin; cbn; tauto.
    + intros k Hk. unfold written, measurement_keys in *. cbn [In] in Hk.
      rewrite !lookup_insert_ne by (intros <-; apply Hk; tauto).
      reflexivity.
Qed.

(** *** Order of the displayed values *)



(** *** Counting crossings *)

Lemma rising_crossings_half (m : Q) (l : list Q) :
  (2 * rising_crossings m l <= length l)%nat /\
  (forall a tl, l = a :: tl -> m <= a ->
                (2 * rising_crossings m l + 1 <= length l)%nat).
Proof.
  induction l as [|a l IH].
  - split; [cbn; lia | intros; discriminate].
  - destruct IH as [IHa IHb].
    destruct l as [|b tl].
    + split; [cbn; lia | intros; cbn; lia].
    + cbn [rising_crossings length] in *. split.
      * destruct (Qlt_le_dec a m) as [Ha|Ha]; [|lia].
        destruct (Qlt_le_dec b m) as [Hb|Hb]; [lia|].
        specialize (IHb b tl eq_refl Hb). lia.
      * intros a' tl' E Hm. injection E as <- <-.
        destruct (Qlt_le_dec a m) as [Ha|Ha]; [exfalso; lra | lia].
Qed.

(** X10: against any threshold, the loop counts at most one crossing per
    two samples. *)
Theorem crossings_at_most_half (v : list Q) (threshold : Q) :
  (2 * count_crossings v threshold <= length v)%nat.
Proof.
  rewrite DisplayProps.count_crossings_rising.
  apply rising_crossings_half.
Qed.

Lemma flat_no_rising (c m : Q) (v : list Q) :
  flat c v -> rising_crossings m v = 0%nat.
Proof.
  induction 1 as [|a l Ha Hl IH]; [reflexivity|].
  destruct l as [|b tl]; [reflexivity|].
  change (rising_crossings m (a :: b :: tl))
    with ((if Qlt_le_dec a m
           then if Qlt_le_dec b m then 0 else 1
           else 0) + rising_crossings m (b :: tl))%nat.
  rewrite IH.
  apply Forall_cons in Hl as [Hb _].
  destruct (Qlt_le_dec a m), (Qlt_le_dec b m); try reflexivity.
  exfalso. lra.
Qed.

Lemma format_zero_quotient (d : Q) :
  format_fixed 1 (inject_Z (Z.of_nat 0) / d * 1000) = "0.0"%string.
Proof.
  destruct d as [[|p|p] q]; reflexivity.
Qed.

(** X11: a flat signal reads 0.0 Hz: when all voltages of a non-empty
    buffer are equal, [update_display] finds no crossing and writes 0.0
    into the frequency label, whatever the time stamps. *)
Theorem flat_signal_reads_zero (st : state) (c : Q) :
  time (scope_data st) <> [] ->
  same_length (scope_data st) ->
  has_labels (meas_labels st) ->
  flat c (voltage (scope_data st)) ->
  count_crossings (voltage (scope_data st))
                  (np_mean (voltage (scope_data st))) = 0%nat /\
  displayed "freq" (update_display st) = Some "0.0"%string.
Proof.
  intros Ht Hlen Hl Hflat.
  assert (Hc : count_crossings (voltage (scope_data st))
                 (np_mean (voltage (scope_data st))) = 0%nat).
  { rewrite DisplayProps.count_crossings_rising.
    now apply (flat_no_rising c). }
  split; [exact Hc|].
  pose proof (DisplayProps.nonempty_voltage _ Ht Hlen) as Hv.
  destruct (DisplayProps.measure_ok (time (scope_data st)) _ Hv)
    as (vmax & vmin & f & _ & _ & Hf & Hm).
  destruct (DisplayProps.update_display_nonempty st _ Ht Hl Hm)
    as (st' & Hup & _ & _ & _ & _ & _ & Hfreq).
  rewrite Hup. cbn [displayed freq] in *. rewrite Hfreq. f_equal.
  rewrite Hc in Hf. unfold estimate_freq, py_div in Hf.
  repeat case_match; cbn [mbind result_bind] in Hf;
    try discriminate; injection Hf as <-;
    [apply format_zero_quotient | reflexivity].
Qed.

Lemma flat_signal_reads_zero_witness :
  displayed "freq"
    (update_display (mkState (mkScope [0; 1; 2] [2; 2; 2]) initial_labels))
  = Some "0.0"%string.
Proof.
  apply (flat_signal_reads_zero
           (mkState (mkScope [0; 1; 2] [2; 2; 2]) initial_labels) 2).
  - discriminate.
  - reflexivity.
  - exact DisplayProps.initial_labels_present.
  - repeat constructor.
Defined.

Lemma update_display_frame_witness :
  scope_data example_shown = scope_data example_buffer.
Proof.
  apply (update_display_frame example_buffer example_shown).
  vm_compute. reflexivity.
Defined.

End DisplayMore.

(** ** Demo synthesizer: further properties *)

Module SynthMore.

Import Synth.

Local Open Scope R_scope.

(** X12: a waveform name that is none of the four radio-button values
    falls through to the zero signal: every sample is the 1.65 V offset
    plus its noise, whatever the frequency and amplitude. *)
Theorem unknown_waveform_is_flat (freq amp : Z) (wave : string)
    (noise : nat -> R) (i : nat) :
  ~ In wave ["SINE"; "SQUARE"; "TRIANGLE"; "SAWTOOTH"]%string ->
  (i < 1000)%nat ->
  voltage (generate_demo_data freq amp wave noise) !! i
  = Some (1.65 + noise i).
Proof.
  intros Hw Hi. rewrite SynthProps.voltage_lookup by exact Hi.
  f_equal. unfold signal_at.
  repeat (case_bool_decide; [exfalso; apply Hw; subst; cbn; tauto|]).
  lra.
Qed.

Lemma unknown_waveform_is_flat_witness :
  voltage (generate_demo_data 1000 200 "NOISE" (fun _ => 0)) !! 7%nat
  = Some (1.65 + 0).
Proof.
  apply (unknown_waveform_is_flat 1000 200 "NOISE" (fun _ => 0) 7).
  - cbn. intros [H|[H|[H|[H|[]]]]]; discriminate.
  - lia.
Defined.

(** X13: with the amplitude at 0 every waveform is flat: each sample is
    the 1.65 V offset plus its noise. *)
Theorem zero_amplitude_is_flat (freq : Z) (wave : string) (noise : nat -> R)
    (i : nat) :
  (i < 1000)%nat ->
  voltage (generate_demo_data freq 0 wave noise) !! i = Some (1.65 + noise i).
Proof.
  intros Hi. rewrite SynthProps.voltage_lookup by exact Hi.
  f_equal. lra.
Qed.

Lemma zero_amplitude_is_flat_witness :
  voltage (generate_demo_data 1000 0 "SQUARE" (fun _ => 0)) !! 3%nat
  = Some (1.65 + 0).
Proof.
  apply (zero_amplitude_is_flat 1000 "SQUARE" (fun _ => 0) 3). lia.
Defined.

(** X14: the time axis is evenly spaced and strictly increasing: two
    neighbouring samples are 100/999 ms apart (the 100 ms are divided
    into 999 intervals, both ends included). *)
Theorem time_axis_spacing (freq amp : Z) (wave : string) (noise : nat -> R)
    (i : nat) :
  (S i < 1000)%nat ->
  exists t0 t1 : R,
    time (generate_demo_data freq amp wave noise) !! i = Some t0 /\
    time (generate_demo_data freq amp wave noise) !! S i = Some t1 /\
    t1 - t0 = 100 / 999 /\ t0 < t1.
Proof.
  intros Hi. exists (tick i), (tick (S i)).
  rewrite !SynthProps.time_lookup by (unfold samples; lia).
  split; [reflexivity|]. split; [reflexivity|].
  unfold tick. rewrite S_INR. lra.
Qed.

Lemma time_axis_spacing_witness :
  exists t0 t1 : R,
    time (generate_demo_data 1000 200 "SINE" (fun _ => 0)) !! 0%nat = Some t0 /\
    time (generate_demo_data 1000 200 "SINE" (fun _ => 0)) !! 1%nat = Some t1 /\
    t1 - t0 = 100 / 999 /\ t0 < t1.
Proof.
  apply (time_axis_spacing 1000 200 "SINE" (fun _ => 0) 0). lia.
Defined.

(** X15: a square wave has three levels only: apart from its noise,
    every sample is the offset minus 1.5 * amp, the offset itself, or the
    offset plus 1.5 * amp. *)
Theorem square_wave_levels (freq amp : Z) (noise : nat -> R) (i : nat) :
  (i < 1000)%nat ->
  exists level : R,
    voltage (generate_demo_data freq amp "SQUARE" noise) !! i
    = Some (level + noise i) /\
    (level = 1.65 - 1.5 * (IZR amp / 255) \/
     level = 1.65 \/
     level = 1.65 + 1.5 * (IZR amp / 255)).
Proof.
  intros Hi. rewrite SynthProps.voltage_lookup by exact Hi.
  eexists. split; [reflexivity|].
  unfold signal_at.
  rewrite bool_decide_eq_false_2 by discriminate.
  rewrite bool_decide_eq_true_2 by reflexivity.
  unfold np_sign.
  destruct (total_order_T _ 0) as [[H|H]|H]; [left|right; left|right; right];
    lra.
Qed.

Lemma square_wave_levels_witness :
  exists level : R,
    voltage (generate_demo_data 1000 200 "SQUARE" (fun _ => 0)) !! 0%nat
    = Some (level + 0) /\
    (level = 1.65 - 1.5 * (IZR 200 / 255) \/
     level = 1.65 \/
     level = 1.65 + 1.5 * (IZR 200 / 255)).
Proof.
  apply (square_wave_levels 1000 200 (fun _ => 0) 0). lia.
Defined.

End SynthMore.

(** ** Function generator commands *)

Module GeneratorProps.

Import Entry Generator.

(** *** Validated values *)

Section AnyTcl.

Context `{TclNumbers}.

Lemma clamp_freq_fixed (n : Z) :
  (1 <= n <= 50000)%Z -> clamp_freq n = n.
Proof.
  intros Hn. unfold clamp_freq.
  destruct (Z.ltb_spec n 1); [lia|].
  destruct (Z.ltb_spec 50000 n); [lia|]. reflexivity.
Qed.

Lemma clamp_amp_fixed (n : Z) :
  (0 <= n <= 255)%Z -> clamp_amp n = n.
Proof.
  intros Hn. unfold clamp_amp.
  destruct (Z.ltb_spec n 0); [lia|].
  destruct (Z.ltb_spec 255 n); [lia|]. reflexivity.
Qed.

(** X16: whenever [validate_and_update_freq] returns normally the
    frequency variable holds an integer between 1 and 50000, and
    validating once more leaves that value in place; likewise the
    amplitude variable holds an integer between 0 and 255. *)
Theorem validated_values_in_range (st st' : Entry.state) :
  (validate_and_update_freq st = (st', None) ->
   exists n, (1 <= n <= 50000)%Z /\ freq_var st' = TclInt n /\
             freq_var (fst (validate_and_update_freq st')) = TclInt n /\
             snd (validate_and_update_freq st') = None)
  /\
  (validate_and_update_amp st = (st', None) ->
   exists n, (0 <= n <= 255)%Z /\ amp_var st' = TclInt n /\
             amp_var (fst (validate_and_update_amp st')) = TclInt n /\
             snd (validate_and_update_amp st') = None).
Proof.
  split; intros Hv.
  - destruct (EntryProps.IntVar_get_outcome (freq_var st)) as [[z Hz]|Hz].
    + rewrite (EntryProps.validate_freq_integer st z Hz) in Hv.
      injection Hv as <-.
      pose proof (EntryProps.clamp_freq_range z) as Hr.
      exists (clamp_freq z).
      assert (Hvar : forall c, freq_var
                (send_command c (set_freq_var (TclInt (clamp_freq z)) st))
                = TclInt (clamp_freq z)).
      { intros c. unfold send_command. repeat case_match; reflexivity. }
      split; [exact Hr|]. split; [apply Hvar|].
      rewrite (EntryProps.validate_freq_integer _ (clamp_freq z))
        by (rewrite Hvar; reflexivity).
      cbn [fst snd]. split; [|reflexivity].
      rewrite (clamp_freq_fixed _ Hr).
      unfold send_command. repeat case_match; reflexivity.
    + rewrite (EntryProps.validate_freq_not_a_number st Hz) in Hv.
      discriminate.
  - destruct (EntryProps.IntVar_get_outcome (amp_var st)) as [[z Hz]|Hz].
    + rewrite (EntryProps.validate_amp_integer st z Hz) in Hv.
      injection Hv as <-.
      pose proof (EntryProps.clamp_amp_range z) as Hr.
      exists (clamp_amp z).
      assert (Hvar : forall c, amp_var
                (send_command c (set_amp_var (TclInt (clamp_amp z)) st))
                = TclInt (clamp_amp z)).
      { intros c. unfold send_command. repeat case_match; reflexivity. }
      split; [exact Hr|]. split; [apply Hvar|].
      rewrite (EntryProps.validate_amp_integer _ (clamp_amp z))
        by (rewrite Hvar; reflexivity).
      cbn [fst snd]. split; [|reflexivity].
      rewrite (clamp_amp_fixed _ Hr).
      unfold send_command. repeat case_match; reflexivity.
    + rewrite (EntryProps.validate_amp_not_a_number st Hz) in Hv.
      discriminate.
Qed.

(** *** What each event writes *)

Lemma send_command_wire (c : string) (p : Entry.state) :
  wire (send_command c p)
  = wire p ++ (if link_up p then [c +:+ newline] else []).
Proof.
  destruct p as [fv av d k s w dl]. unfold send_command, link_up.
  destruct d, k, s as [[|]|]; cbn; rewrite ?app_nil_r; reflexivity.
Qed.

Lemma send_command_link (c : string) (p : Entry.state) :
  link_up (send_command c p) = link_up p.
Proof.
  destruct p as [fv av d k s w dl]. unfold send_command, link_up.
  destruct d, k, s as [[|]|]; reflexivity.
Qed.

Lemma no_lines (p : Entry.state) (b : bool) :
  wire p = wire p ++ (if b then [] else []).
Proof. destruct b; now rewrite app_nil_r. Qed.

Lemma handle_wire (ev : event) (st : state) :
  wire (panel (handle ev st))
  = wire (panel st)
    ++ (if link_up (panel st) then wire_line <$> emitted ev st else []).
Proof.
  destruct ev; cbn [handle emitted with_panel panel fmap list_fmap].
  - unfold set_freq_var. cbn [wire]. apply no_lines.
  - unfold set_amp_var. cbn [wire]. apply no_lines.
  - destruct (EntryProps.IntVar_get_outcome (freq_var (panel st)))
      as [[z Hz]|Hz]; rewrite Hz.
    + rewrite (EntryProps.validate_freq_integer _ z Hz). cbn [fst].
      now rewrite send_command_wire.
    + rewrite (EntryProps.validate_freq_not_a_number _ Hz). apply no_lines.
  - destruct (EntryProps.IntVar_get_outcome (amp_var (panel st)))
      as [[z Hz]|Hz]; rewrite Hz.
    + rewrite (EntryProps.validate_amp_integer _ z Hz). cbn [fst].
      now rewrite send_command_wire.
    + rewrite (EntryProps.validate_amp_not_a_number _ Hz). apply no_lines.
  - cbn. now rewrite send_command_wire.
  - cbn. now rewrite send_command_wire.
  - cbn. now rewrite send_command_wire.
  - unfold update_waveform. cbn [panel wave_var].
    now rewrite send_command_wire.
  - unfold toggle_generator.
    destruct (gen_active st); cbn [negb panel]; now rewrite send_command_wire.
Qed.

Lemma handle_link (ev : event) (st : state) :
  link_up (panel (handle ev st)) = link_up (panel st).
Proof.
  destruct ev; cbn [handle with_panel panel]; try reflexivity.
  - destruct (EntryProps.IntVar_get_outcome (freq_var (panel st)))
      as [[z Hz]|Hz].
    + rewrite (EntryProps.validate_freq_integer _ z Hz). cbn [fst].
      now rewrite send_command_link.
    + now rewrite (EntryProps.validate_freq_not_a_number _ Hz).
  - destruct (EntryProps.IntVar_get_outcome (amp_var (panel st)))
      as [[z Hz]|Hz].
    + rewrite (EntryProps.validate_amp_integer _ z Hz). cbn [fst].
      now rewrite send_command_link.
    + now rewrite (EntryProps.validate_amp_not_a_number _ Hz).
  - cbn. now rewrite send_command_link.
  - cbn. now rewrite send_command_link.
  - cbn. now rewrite send_command_link.
  - unfold update_waveform. cbn [panel]. now rewrite send_command_link.
  - unfold toggle_generator.
    destruct (gen_active st); cbn [negb panel]; now rewrite send_command_link.
Qed.

Lemma handle_gen_active (ev : event) (st : state) :
  gen_active (handle ev st)
  = match ev with
    | ToggleGenerator => negb (gen_active st)
    | _ => gen_active st
    end.
Proof.
  destruct ev; try reflexivity.
  unfold handle, toggle_generator. now destruct (gen_active st).
Qed.

Lemma emitted_in_range (ev : event) (st : state) :
  possible ev -> Forall in_range (emitted ev st).
Proof.
  destruct ev; cbn [possible emitted]; intros Hp;
    try case_match; try apply Forall_nil_2;
    apply Forall_singleton; cbn [in_range]; try assumption; try exact I.
  - apply EntryProps.clamp_freq_range.
  - apply EntryProps.clamp_amp_range.
  - unfold quick_frequencies in Hp. cbn [In] in Hp.
    destruct Hp as [<-|[<-|[<-|[<-|[]]]]]; lia.
Qed.

(** X17: while the link is down (demo mode, no connection, or a port
    whose writes fail) no sequence of panel events puts anything on the
    wire. *)
Theorem nothing_written_while_link_down (evs : list event) (st : state) :
  link_up (panel st) = false ->
  wire (panel (run evs st)) = wire (panel st) /\
  link_up (panel (run evs st)) = false.
Proof.
  revert st. induction evs as [|ev evs IH]; intros st Hdown; [auto|].
  unfold run in *. cbn [fold_left].
  destruct (IH (handle ev st)) as [Hw Hl].
  { now rewrite handle_link. }
  rewrite Hw, Hl, handle_wire, Hdown. now rewrite app_nil_r.
Qed.

(** X18: every line the panel writes is a well-formed command within the
    ranges of the device: FREQ with 1 to 50000, AMP with 0 to 255, WAVE
    with one of the four kinds, GEN:ON or GEN:OFF, each ended by a
    newline. *)
Theorem wire_carries_protocol_lines (evs : list event) (st : state) :
  Forall possible evs ->
  Forall protocol_line (wire (panel st)) ->
  Forall protocol_line (wire (panel (run evs st))).
Proof.
  intros Hev. revert st.
  induction Hev as [|ev evs Hp _ IH]; intros st Hw; [exact Hw|].
  unfold run in *. cbn [fold_left]. apply IH.
  rewrite handle_wire. apply Forall_app. split; [exact Hw|].
  destruct (link_up (panel st)); [|constructor].
  pose proof (emitted_in_range ev st Hp) as Hr.
  induction Hr as [|c cs Hc _ IHr]; constructor; [|exact IHr].
  exists c. split; [exact Hc | reflexivity].
Qed.

(** *** The output button and the device *)

Lemma last_gen_snoc (lines : list string) (line : string) :
  last_gen (lines ++ [line])
  = match gen_line line with
    | Some b => Some b
    | None => last_gen lines
    end.
Proof.
  induction lines as [|l lines IH]; cbn [app last_gen].
  - now destruct (gen_line line).
  - rewrite IH. destruct (gen_line line); [reflexivity|].
    reflexivity.
Qed.

Lemma gen_line_encode (c : command) :
  gen_line (wire_line c)
  = match c with
    | GEN on => Some on
    | _ => None
    end.
Proof.
  unfold gen_line, wire_line.
  destruct c as [n|n|w|[|]]; cbn [encode];
    repeat case_bool_decide; try reflexivity; try discriminate;
    exfalso; auto.
Qed.

(** X19: while the link is up the output button tells the truth: if the
    button state and the last GEN command on the wire agree, they still
    agree after any sequence of panel events. *)
Theorem output_button_tracks_device (evs : list event) (st : state) :
  link_up (panel st) = true ->
  output_agrees st ->
  output_agrees (run evs st).
Proof.
  revert st. induction evs as [|ev evs IH]; intros st Hup Hag; [exact Hag|].
  unfold run in *. cbn [fold_left]. apply IH.
  { now rewrite handle_link. }
  unfold output_agrees in *.
  rewrite handle_wire, Hup, handle_gen_active.
  destruct ev; cbn [emitted];
    try destruct (IntVar_get _);
    cbn [fmap list_fmap];
    rewrite ?app_nil_r, ?last_gen_snoc, ?gen_line_encode;
    first [exact Hag | reflexivity].
Qed.

End AnyTcl.

Lemma validated_values_in_range_witness :
  exists n, (1 <= n <= 50000)%Z /\
            freq_var (fst (validate_and_update_freq (typed "60000" "200")))
            = TclInt n.
Proof.
  assert (Hv : validate_and_update_freq (typed "60000" "200")
               = (fst (validate_and_update_freq (typed "60000" "200")), None))
    by (vm_compute; reflexivity).
  destruct (proj1 (validated_values_in_range _ _) Hv) as (n & Hn & Hf & _).
  exists n. split; [exact Hn | exact Hf].
Defined.

Lemma nothing_written_while_link_down_witness :
  wire (panel (run example_session (initial true false None))) = [].
Proof.
  apply (nothing_written_while_link_down example_session
           (initial true false None)).
  reflexivity.
Defined.

Lemma wire_carries_protocol_lines_witness :
  Forall protocol_line
         (wire (panel (run example_session (initial false true (Some true))))).
Proof.
  apply wire_carries_protocol_lines.
  - unfold example_session. repeat constructor; cbn; try lia; tauto.
  - constructor.
Defined.

Lemma output_button_tracks_device_witness :
  output_agrees (run example_session (initial false true (Some true))).
Proof.
  apply output_button_tracks_device; reflexivity.
Defined.

End GeneratorProps.

(** ** Connection life cycle: further properties *)

Module ConnMore.

Import Conn ConnShape.

(** Open a state and its coherence facts into their fields. *)
Ltac open_state st Hc :=
  destruct Hc as [Hr Hp Hd Hk Hcombo Hs Hx];
  destruct st as [c d r a s p cb db pc stx]; cbn in *.

Ltac close_coherent :=
  constructor; cbn; auto; try (intros; congruence);
  try (split; intros; congruence).

Lemma coherent_initial (port : string) : coherent (initial port).
Proof. close_coherent. Qed.

Lemma coherent_toggle_run (st : state) :
  coherent st -> coherent (toggle_run st).
Proof. intros Hc. open_state st Hc. close_coherent. Qed.

Lemma coherent_select_port (q : string) (st : state) :
  coherent st -> coherent (select_port q st).
Proof. intros Hc. open_state st Hc. close_coherent. Qed.

Lemma coherent_connect (opens : bool) (st : state) :
  coherent st -> connected st = false -> connect_btn st <> DISABLED ->
  coherent (connect opens st).
Proof.
  intros Hc Hconn Hbtn. unfold connect.
  case_bool_decide; [exact Hc|]. destruct opens; [|exact Hc].
  open_state st Hc. subst c.
  destruct d; [subst cb; contradiction|].
  close_coherent.
Qed.

Lemma coherent_disconnect (st : state) :
  coherent st -> connected st = true -> coherent (disconnect st).
Proof.
  intros Hc Hconn. open_state st Hc. subst c.
  rewrite (Hx eq_refl) in *. rewrite (proj1 Hp eq_refl) in *.
  unfold disconnect. destruct r; cbn; close_coherent.
Qed.

Lemma coherent_toggle_demo_mode (st : state) :
  coherent st -> demo_btn st <> DISABLED -> coherent (toggle_demo_mode st).
Proof.
  intros Hc Hbtn. open_state st Hc.
  destruct c; [subst db; contradiction|].
  unfold toggle_demo_mode. destruct d; cbn; close_coherent.
Qed.

Lemma coherent_step (st st' : state) :
  coherent st -> step st st' -> coherent st'.
Proof.
  intros Hc Hstep. inversion Hstep; subst; clear Hstep.
  - unfold toggle_connection. destruct (connected st) eqn:E.
    + now apply coherent_disconnect.
    + now apply coherent_connect.
  - now apply coherent_toggle_demo_mode.
  - now apply coherent_toggle_run.
  - now apply coherent_select_port.
Qed.

Lemma reachable_coherent (port : string) (st : state) :
  reachable port st -> coherent st.
Proof.
  induction 1 as [|st st' _ IH Hstep].
  - apply coherent_initial.
  - eapply coherent_step; eassumption.
Qed.

(** X20: the serial port is open exactly while the program counts as
    connected: in every reachable state [connected] is true if and only
    if [self.ser] is an open handle. *)
Theorem port_open_iff_connected (port : string) (st : state) :
  reachable port st ->
  (connected st = true <-> ser st = Some true).
Proof.
  intros Hr. apply (port_open _ (reachable_coherent port st Hr)).
Qed.

Lemma port_open_iff_connected_witness :
  connected after_connect = true <-> ser after_connect = Some true.
Proof.
  apply (port_open_iff_connected "COM3").
  apply (reach_step "COM3" (initial "COM3")).
  - apply reach_initial.
  - apply step_connect_btn. discriminate.
Defined.

(** X21: the widgets always show the mode the program is in: in every
    reachable state the status line reads CONNECTED, DEMO MODE or
    DISCONNECTED according to the two flags, the demo button is disabled
    exactly while connected, and the connect button and the port list are
    disabled exactly while in demo mode. *)
Theorem widgets_show_mode (port : string) (st : state) :
  reachable port st ->
  status_text st = status_of (connected st) (demo_mode st) /\
  (demo_btn st = DISABLED <-> connected st = true) /\
  (connect_btn st = DISABLED <-> demo_mode st = true) /\
  (port_combo st = DISABLED <-> demo_mode st = true).
Proof.
  intros Hr.
  destruct (reachable_coherent port st Hr) as [_ _ Hd Hk Hcombo Hs _].
  split; [exact Hs|].
  rewrite Hd, Hk, Hcombo.
  destruct (connected st), (demo_mode st); repeat split; congruence.
Qed.

Lemma widgets_show_mode_witness :
  status_text after_connect
  = status_of (connected after_connect) (demo_mode after_connect) /\
  (demo_btn after_connect = DISABLED <-> connected after_connect = true) /\
  (connect_btn after_connect = DISABLED <-> demo_mode after_connect = true) /\
  (port_combo after_connect = DISABLED <-> demo_mode after_connect = true).
Proof.
  apply (widgets_show_mode "COM3").
  apply (reach_step "COM3" (initial "COM3")).
  - apply reach_initial.
  - apply step_connect_btn. discriminate.
Defined.

(** X22: disconnecting always ends continuous capture: from any
    reachable state, after [disconnect] the flags [running] and
    [auto_capture] are both false, [connected] is false and the port is
    not open. *)
Theorem disconnect_stops_run (port : string) (st : state) :
  reachable port st ->
  running (disconnect st) = false /\
  auto_capture (disconnect st) = false /\
  connected (disconnect st) = false /\
  ser (disconnect st) <> Some true.
Proof.
  intros Hr. destruct (reachable_coherent port st Hr) as [Hrun _ _ _ _ _ _].
  unfold disconnect.
  destruct (running st) eqn:Er; cbn; rewrite ?Er, <- ?Hrun, ?Er;
    repeat split; try reflexivity;
    destruct (ser st); discriminate.
Qed.

(** A connected session with continuous capture switched on. *)
Lemma running_session_reachable :
  reachable "COM3" (toggle_run after_connect).
Proof.
  apply (reach_step "COM3" after_connect).
  - apply (reach_step "COM3" (initial "COM3")).
    + apply reach_initial.
    + apply step_connect_btn. discriminate.
  - apply step_run_btn.
Defined.

Lemma disconnect_stops_run_witness :
  running (disconnect (toggle_run after_connect)) = false /\
  auto_capture (disconnect (toggle_run after_connect)) = false /\
  connected (disconnect (toggle_run after_connect)) = false /\
  ser (disconnect (toggle_run after_connect)) <> Some true.
Proof.
  apply (disconnect_stops_run "COM3"). exact running_session_reachable.
Defined.

(** X23: entering and leaving demo mode is a round trip: in a reachable
    state where the demo button is enabled, pressing it twice gives back
    exactly the state before, widgets included. *)
Theorem demo_mode_round_trip (port : string) (st : state) :
  reachable port st ->
  demo_btn st <> DISABLED ->
  toggle_demo_mode (toggle_demo_mode st) = st.
Proof.
  intros Hr Hbtn.
  destruct (reachable_coherent port st Hr) as [_ _ Hd Hk Hcombo Hs _].
  assert (Hconn : connected st = false).
  { destruct (connected st); [now rewrite Hd in Hbtn | reflexivity]. }
  rewrite Hconn in Hs.
  destruct st as [c d r a s p cb db pc stx]. cbn in *. subst c.
  unfold toggle_demo_mode. cbn.
  destruct d; cbn in *; subst; reflexivity.
Qed.

Lemma demo_mode_round_trip_witness :
  toggle_demo_mode (toggle_demo_mode (initial "COM3")) = initial "COM3".
Proof.
  apply (demo_mode_round_trip "COM3").
  - apply reach_initial.
  - discriminate.
Defined.

End ConnMore.

(** ** Start-up *)

Module StartupProps.

Import Conn Startup.

Lemma scan_ports_spec (ports : list port_info) (port_var : string) :
  match scan_ports ports port_var with
  | (true, chosen) => exists p, first_like_esp p ports /\ chosen = device p
  | (false, chosen) => none_like_esp ports /\ chosen = port_var
  end.
Proof.
  induction ports as [|q ports IH]; cbn [scan_ports].
  - split; [constructor | reflexivity].
  - destruct (looks_like_esp q) eqn:Eq.
    + exists q. split; [|reflexivity].
      exists [], ports. repeat split; [constructor | exact Eq].
    + destruct (scan_ports ports port_var) as [[|] chosen].
      * destruct IH as (p & (pre & post & -> & Hpre & Hp) & ->).
        exists p. split; [|reflexivity].
        exists (q :: pre), post. repeat split; [|exact Hp].
        now constructor.
      * destruct IH as [Hn ->]. split; [now constructor | reflexivity].
Qed.

(** X24: [check_startup] picks the first port whose description mentions
    USB, Serial, CH340 or CP210: it then stores that port's device in
    [port_var] and, on a yes, schedules the connection; when no port
    qualifies it leaves [port_var] alone and, on a yes, schedules demo
    mode; on a no it schedules nothing. *)
Theorem check_startup_choice (ports : list port_info) (yes : bool)
    (port_var : string) :
  (exists p, first_like_esp p ports /\
             check_startup ports yes port_var
             = (device p, if yes then Some ToggleConnection else None))
  \/
  (none_like_esp ports /\
   check_startup ports yes port_var
   = (port_var, if yes then Some ToggleDemoMode else None)).
Proof.
  unfold check_startup.
  pose proof (scan_ports_spec ports port_var) as Hs.
  destruct (scan_ports ports port_var) as [[|] chosen]; cbn [negb].
  - destruct Hs as (p & Hp & ->). left. exists p. split; [exact Hp|reflexivity].
  - destruct Hs as [Hn ->]. right. split; [exact Hn|reflexivity].
Qed.

Lemma select_port_reachable (port q : string) :
  reachable port (select_port q (initial port)).
Proof.
  apply (reach_step port (initial port)); [apply reach_initial|].
  apply step_port_combo. discriminate.
Qed.

(** X25: start-up ends in a state that button presses could have
    produced, so everything that holds of the reachable states holds
    after start-up; in particular the program never starts both
    connected and in demo mode. *)
Theorem boot_reachable (ports : list port_info) (yes opens : bool) :
  reachable (refresh_ports ports "") (boot ports yes opens) /\
  ~ (connected (boot ports yes opens) = true /\
     demo_mode (boot ports yes opens) = true).
Proof.
  assert (Hr : reachable (refresh_ports ports "") (boot ports yes opens)).
  { unfold boot.
    destruct (check_startup ports yes (refresh_ports ports ""))
      as [p1 [[|]|]].
    - eapply reach_step; [apply select_port_reachable|].
      apply step_demo_btn. discriminate.
    - eapply reach_step; [apply select_port_reachable|].
      apply step_connect_btn. discriminate.
    - apply select_port_reachable. }
  split; [exact Hr|].
  intros [Hc Hd].
  destruct (ConnProps.reachable_consistent _ _ Hr) as [Hcons _].
  destruct (Hcons Hc) as [Hd' _]. congruence.
Qed.

(** X26: what start-up leads to. The program starts in demo mode exactly
    when the user said yes and no port looks like an ESP32 adapter; it
    starts connected only when the user said yes, the port opened, and
    then [port_var] names the first such port. *)
Theorem boot_outcome (ports : list port_info) (yes opens : bool) :
  (demo_mode (boot ports yes opens) = true
   <-> yes = true /\ none_like_esp ports)
  /\
  (connected (boot ports yes opens) = true ->
   yes = true /\ opens = true /\
   exists p, first_like_esp p ports /\
             port_var (boot ports yes opens) = device p).
Proof.
  unfold boot.
  destruct (check_startup_choice ports yes (refresh_ports ports ""))
    as [(p & Hp & ->)|[Hn ->]].
  - assert (Hsome : ~ none_like_esp ports).
    { destruct Hp as (pre & post & -> & _ & Hesp). intros Hall.
      apply Forall_app in Hall as [_ Hall].
      apply Forall_cons in Hall as [Hq _]. congruence. }
    destruct yes.
    + unfold toggle_connection, connect. cbn.
      case_bool_decide; cbn.
      * split; [split; [discriminate | tauto] | discriminate].
      * destruct opens; cbn.
        -- split; [split; [discriminate | tauto]|].
           intros _. repeat split. exists p. auto.
        -- split; [split; [discriminate | tauto] | discriminate].
    + cbn. split; [split; [discriminate | intros [? _]; discriminate]
                  | discriminate].
  - destruct yes; cbn.
    + split; [tauto | discriminate].
    + split; [split; [discriminate | intros [? _]; discriminate]
             | discriminate].
Qed.

Lemma boot_outcome_witness :
  true = true /\ true = true /\
  exists p, first_like_esp p example_ports /\
            port_var (boot example_ports true true) = device p.
Proof.
  apply (proj2 (boot_outcome example_ports true true)). reflexivity.
Defined.

End StartupProps.

(** ** Demo synthesizer in floating-point arithmetic *)

Module SynthFloatProps.

Import Entry.
Import SynthFloat.

Section Ops.

Context `{TclNumbers} `{FloatOps}.

Lemma float_signal_at_spec (w : Synth.waveform) (f : Z) (t : float) :
  SynthFloat.signal_at (Synth.wave_name w) f t = SynthFloat.spec_signal w f t.
Proof.
  unfold SynthFloat.signal_at.
  destruct w; cbn [Synth.wave_name SynthFloat.spec_signal];
    repeat (case_bool_decide; try discriminate);
    try congruence; reflexivity.
Qed.

(** A read that raises ends the method with that exception. *)
Lemma generate_demo_data_read_fails (freq_var amp_var : tcl_value)
    (wave_var : string) (noise : nat -> float) (e : exn) :
  IntVar_get freq_var = Raise e ->
  SynthFloat.generate_demo_data freq_var amp_var wave_var noise = Raise e.
Proof.
  intros Hf. unfold SynthFloat.generate_demo_data.
  rewrite Hf. reflexivity.
Qed.

(** When both reads return, the buffer is built. *)
Lemma generate_demo_data_reads (freq_var amp_var : tcl_value)
    (wave_var : string) (noise : nat -> float) (f a : Z) :
  IntVar_get freq_var = Ok f ->
  IntVar_get amp_var = Ok a ->
  SynthFloat.generate_demo_data freq_var amp_var wave_var noise =
    Ok (mkScope
          (linspace (of_int 0) (of_int 100) SynthFloat.samples)
          (zip_with fadd
             ((fun s =>
                 fadd (literal 1.65)
                      (fmul (fmul (fdiv (of_int a) (literal 255))
                                  (literal 1.5)) s))
                <$> (SynthFloat.signal_at wave_var f
                       <$> ((fun x => fdiv x (literal 1000))
                              <$> linspace (of_int 0) (of_int 100)
                                           SynthFloat.samples)))
             (noise <$> seq 0 SynthFloat.samples))).
Proof.
  intros Hf Ha. unfold SynthFloat.generate_demo_data.
  rewrite Hf. cbn [mbind result_bind]. rewrite Ha. reflexivity.
Qed.


End Ops.



End SynthFloatProps.

(** ** A captured frame on the display *)

Module PipelineProps.

Import Format Capture Display PipelineShape.

Local Open Scope Q_scope.


End PipelineProps.
